(** * The SQLite/Drizzle authentication adapter of [src/db/schema.ts]

    The file embeds the four authentication tables declared in
    [schema.ts] (users, accounts, sessions, verificationToken), the
    statements the adapter issues against the database client, and the
    adapter [SQLiteDrizzleAdapter] itself, one definition per method.

    The client is an object the caller passes in.  Its statements are
    modelled over an in-memory database: a table is the list of its
    rows in storage order, a statement either commits a new database
    or throws and leaves the database as it was.  JavaScript values
    that may be [undefined] or [null] are kept apart, because the
    adapter's contract distinguishes them.

    The client is of either kind drizzle has for SQLite, and the
    adapter is typed for both: a synchronous client hands the outcome
    of a statement back at once, an asynchronous one (D1, for which
    the package's scripts are written) hands back a Promise.  The
    adapter never awaits, so on an asynchronous client its operators
    meet the Promise, not the row; both kinds are modelled, and the
    properties say which kind they are about.

    The database enforces what the tables declare: the primary keys,
    and the two foreign keys to [users.id] with their
    [onDelete: "cascade"].  The posts table has no foreign key and no
    method of the adapter reads or writes it; it is left out. *)

From Stdlib Require Import String List ZArith Bool.
Import ListNotations.
Open Scope string_scope.
Open Scope list_scope.

(** ** JavaScript values *)

(** A value of type [T | null | undefined]. *)
Inductive js (A : Type) : Type :=
| undefined : js A
| null : js A
| val : A -> js A.
Arguments undefined {A}.
Arguments null {A}.
Arguments val {A} _.

(** The nullish coalescing operator [x ?? d]. *)
Definition nullish {A} (x d : js A) : js A :=
  match x with
  | val a => val a
  | _ => d
  end.
Infix "??" := nullish (at level 45, left associativity).

(** Optional chaining on a property, [x?.f]. *)
Definition optional_chain {A B} (x : js A) (f : A -> js B) : js B :=
  match x with
  | val a => f a
  | _ => undefined
  end.

(** [!s] on a possibly missing string: missing and empty are falsy. *)
Definition not_string (s : option string) : bool :=
  match s with
  | None => true
  | Some s => s =? ""
  end.

(** What the driver reads from a nullable column: NULL comes back as
    [null]. *)
Definition from_column {A} (c : option A) : js A :=
  match c with
  | Some a => val a
  | None => null
  end.

(** What the driver binds for a nullable column on insert: a property
    that is [undefined] or [null] is stored as NULL. *)
Definition to_column {A} (x : js A) : option A :=
  match x with
  | val a => Some a
  | _ => None
  end.

(** [.set(...)] skips a property that is [undefined], stores NULL for
    [null], and the value otherwise. *)
Definition set_nullable {A} (x : js A) (old : option A) : option A :=
  match x with
  | undefined => old
  | null => None
  | val a => Some a
  end.

Definition set_required {A} (x : option A) (old : A) : A :=
  match x with
  | Some a => a
  | None => old
  end.

(** ** Exceptions and results *)

Inductive exn : Type :=
| Error (message : string)
| TypeError (message : string)
| SqliteError (code : string).

Inductive result (A : Type) : Type :=
| Ok : A -> result A
| Throw : exn -> result A.
Arguments Ok {A} _.
Arguments Throw {A} _.

(** ** The tables *)

Module users.
Record row : Type := mk {
  id : string;
  name : option string;
  email : string;
  emailVerified : option Z;
  image : option string
}.
End users.

Module accounts.
Record row : Type := mk {
  userId : string;
  type : string;
  provider : string;
  providerAccountId : string;
  refresh_token : option string;
  access_token : option string;
  expires_at : option Z;
  token_type : option string;
  scope : option string;
  id_token : option string;
  session_state : option string
}.
End accounts.

Module sessions.
Record row : Type := mk {
  sessionToken : string;
  userId : string;
  expires : Z
}.
End sessions.

Module verificationTokens.
Record row : Type := mk {
  identifier : string;
  token : string;
  expires : Z
}.
End verificationTokens.

(** [schema]: the tables the adapter works on. *)
Record schema : Type := mkSchema {
  users_of : list users.row;
  accounts_of : list accounts.row;
  sessions_of : list sessions.row;
  verificationTokens_of : list verificationTokens.row
}.

Definition empty_schema : schema := mkSchema [] [] [] [].

(** ** Column predicates: [eq] and [and] of drizzle *)

Definition eq (a b : string) : bool := (a =? b)%string.

Definition and_ (a b : bool) : bool := a && b.


(** ** Keys and constraints declared by the tables *)

Definition has_user (us : list users.row) (uid : string) : bool :=
  existsb (fun u => eq (users.id u) uid) us.

(** [primaryKey(account.provider, account.providerAccountId)] *)
Definition same_account (a b : accounts.row) : bool :=
  and_ (eq (accounts.provider a) (accounts.provider b))
       (eq (accounts.providerAccountId a) (accounts.providerAccountId b)).

(** [primaryKey(vt.identifier, vt.token)] *)
Definition same_token (a b : verificationTokens.row) : bool :=
  and_ (eq (verificationTokens.identifier a) (verificationTokens.identifier b))
       (eq (verificationTokens.token a) (verificationTokens.token b)).

Definition same_user (a b : users.row) : bool :=
  eq (users.id a) (users.id b).

Definition same_session (a b : sessions.row) : bool :=
  eq (sessions.sessionToken a) (sessions.sessionToken b).

(** No two rows of a table agree on the primary key. *)
Fixpoint unique {R} (same : R -> R -> bool) (l : list R) : bool :=
  match l with
  | [] => true
  | r :: l' => negb (existsb (same r) l') && unique same l'
  end.

(** Every [userId] of a child table references a user. *)
Definition references {R} (userId : R -> string) (us : list users.row)
    (l : list R) : bool :=
  forallb (fun r => has_user us (userId r)) l.

Definition primary_keys_ok (d : schema) : bool :=
  unique same_user (users_of d)
  && unique same_account (accounts_of d)
  && unique same_session (sessions_of d)
  && unique same_token (verificationTokens_of d).

Definition foreign_keys_ok (d : schema) : bool :=
  references accounts.userId (users_of d) (accounts_of d)
  && references sessions.userId (users_of d) (sessions_of d).

(** The state of a database on which the declared constraints hold. *)
Definition consistent (d : schema) : Prop :=
  primary_keys_ok d = true /\ foreign_keys_ok d = true.

Definition PRIMARYKEY : exn := SqliteError "SQLITE_CONSTRAINT_PRIMARYKEY".
Definition FOREIGNKEY : exn := SqliteError "SQLITE_CONSTRAINT_FOREIGNKEY".

(** ** Statements

    A statement maps the database to a result and the database after
    it; a statement that throws leaves the database unchanged. *)

Definition statement (A : Type) : Type := schema -> result A * schema.

Definition with_users (d : schema) (l : list users.row) : schema :=
  mkSchema l (accounts_of d) (sessions_of d) (verificationTokens_of d).
Definition with_accounts (d : schema) (l : list accounts.row) : schema :=
  mkSchema (users_of d) l (sessions_of d) (verificationTokens_of d).
Definition with_sessions (d : schema) (l : list sessions.row) : schema :=
  mkSchema (users_of d) (accounts_of d) l (verificationTokens_of d).
Definition with_verificationTokens (d : schema)
    (l : list verificationTokens.row) : schema :=
  mkSchema (users_of d) (accounts_of d) (sessions_of d) l.

(** [insert(t).values(v).returning()] *)
Definition insert_users (v : users.row) : statement (list users.row) :=
  fun d =>
    if existsb (same_user v) (users_of d) then (Throw PRIMARYKEY, d)
    else (Ok [v], with_users d (users_of d ++ [v])).

Definition insert_accounts (v : accounts.row)
    : statement (list accounts.row) :=
  fun d =>
    if existsb (same_account v) (accounts_of d) then (Throw PRIMARYKEY, d)
    else if negb (has_user (users_of d) (accounts.userId v))
    then (Throw FOREIGNKEY, d)
    else (Ok [v], with_accounts d (accounts_of d ++ [v])).

Definition insert_sessions (v : sessions.row)
    : statement (list sessions.row) :=
  fun d =>
    if existsb (same_session v) (sessions_of d) then (Throw PRIMARYKEY, d)
    else if negb (has_user (users_of d) (sessions.userId v))
    then (Throw FOREIGNKEY, d)
    else (Ok [v], with_sessions d (sessions_of d ++ [v])).

Definition insert_verificationTokens (v : verificationTokens.row)
    : statement (list verificationTokens.row) :=
  fun d =>
    if existsb (same_token v) (verificationTokens_of d)
    then (Throw PRIMARYKEY, d)
    else (Ok [v],
          with_verificationTokens d (verificationTokens_of d ++ [v])).

(** [select().from(users).where(w)] *)
Definition select_users (where_ : users.row -> bool)
    : statement (list users.row) :=
  fun d => (Ok (filter where_ (users_of d)), d).

(** The rows of [l INNER JOIN r ON on], in nested-loop order. *)
Definition innerJoin {A B} (l : list A) (r : list B) (on : A -> B -> bool)
    : list (A * B) :=
  flat_map (fun a => map (pair a) (filter (on a) r)) l.

(** The rows of [l LEFT JOIN r ON on]: a left row without a partner is
    kept, with [null] on the right. *)
Definition left_rows {A B} (a : A) (partners : list B) : list (A * js B) :=
  match partners with
  | [] => [(a, null)]
  | _ => map (fun b => (a, val b)) partners
  end.

Definition leftJoin {A B} (l : list A) (r : list B) (on : A -> B -> bool)
    : list (A * js B) :=
  flat_map (fun a => left_rows a (filter (on a) r)) l.

(** The row shape of [select({ session: sessions, user: users })]. *)
Record SessionAndUser : Type := mkSessionAndUser {
  session : sessions.row;
  user : users.row
}.

(** The row shape of [select().from(accounts).leftJoin(users, ...)]:
    one property per table, named after the table. *)
Record AccountsUsers : Type := mkAccountsUsers {
  accounts : accounts.row;
  users : js users.row
}.

Definition select_sessions_innerJoin_users
    (where_ : sessions.row -> bool) (on : sessions.row -> users.row -> bool)
    : statement (list SessionAndUser) :=
  fun d =>
    (Ok (map (fun p => mkSessionAndUser (fst p) (snd p))
             (filter (fun p => where_ (fst p))
                     (innerJoin (sessions_of d) (users_of d) on))), d).

Definition select_accounts_leftJoin_users
    (on : accounts.row -> users.row -> bool) (where_ : accounts.row -> bool)
    : statement (list AccountsUsers) :=
  fun d =>
    (Ok (map (fun p => mkAccountsUsers (fst p) (snd p))
             (filter (fun p => where_ (fst p))
                     (leftJoin (accounts_of d) (users_of d) on))), d).

(** [delete(users).where(w).returning()]: the rows that match are
    removed and returned; [onDelete: "cascade"] on [accounts.userId] and
    [sessions.userId] removes the rows that reference a removed user. *)
Definition delete_users (where_ : users.row -> bool)
    : statement (list users.row) :=
  fun d =>
    let gone := filter where_ (users_of d) in
    let kept {R} (userId : R -> string) (r : R) :=
      negb (has_user gone (userId r)) in
    (Ok gone,
     mkSchema (filter (fun u => negb (where_ u)) (users_of d))
              (filter (kept accounts.userId) (accounts_of d))
              (filter (kept sessions.userId) (sessions_of d))
              (verificationTokens_of d)).

Definition delete_accounts (where_ : accounts.row -> bool)
    : statement (list accounts.row) :=
  fun d =>
    (Ok (filter where_ (accounts_of d)),
     with_accounts d (filter (fun a => negb (where_ a)) (accounts_of d))).

Definition delete_sessions (where_ : sessions.row -> bool)
    : statement (list sessions.row) :=
  fun d =>
    (Ok (filter where_ (sessions_of d)),
     with_sessions d (filter (fun s => negb (where_ s)) (sessions_of d))).

Definition delete_verificationTokens (where_ : verificationTokens.row -> bool)
    : statement (list verificationTokens.row) :=
  fun d =>
    (Ok (filter where_ (verificationTokens_of d)),
     with_verificationTokens d
       (filter (fun t => negb (where_ t)) (verificationTokens_of d))).

(** [update(t).set(s).where(w).returning()]: every matching row is
    replaced by its image under [s], and the images are returned.  A row
    whose primary key is left as it was cannot collide with another row
    nor strand a child; otherwise the constraints are checked on the
    new state. *)
Definition update_rows {R} (set : R -> R) (where_ : R -> bool) (l : list R)
    : list R :=
  map (fun r => if where_ r then set r else r) l.

Definition update_users (set : users.row -> users.row)
    (where_ : users.row -> bool) : statement (list users.row) :=
  fun d =>
    let hit := filter where_ (users_of d) in
    let d' := with_users d (update_rows set where_ (users_of d)) in
    let keys_kept := forallb (fun r => same_user (set r) r) hit in
    if negb (keys_kept || unique same_user (users_of d'))
    then (Throw PRIMARYKEY, d)
    else if negb (keys_kept || foreign_keys_ok d')
    then (Throw FOREIGNKEY, d)
    else (Ok (map set hit), d').

Definition update_sessions (set : sessions.row -> sessions.row)
    (where_ : sessions.row -> bool) : statement (list sessions.row) :=
  fun d =>
    let hit := filter where_ (sessions_of d) in
    let d' := with_sessions d (update_rows set where_ (sessions_of d)) in
    let keys_kept := forallb (fun r => same_session (set r) r) hit in
    if negb (keys_kept || unique same_session (sessions_of d'))
    then (Throw PRIMARYKEY, d)
    else if negb (references sessions.userId (users_of d) (map set hit))
    then (Throw FOREIGNKEY, d)
    else (Ok (map set hit), d').

(** ** The client

    [BaseSQLiteDatabase<TResultKind, TRunResult>]: the kind of the
    client, the database, and the faults of the connection.  [faults]
    lists, statement by statement, whether the next statement reaches
    the database ([None]) or fails before it with the given error
    code. *)
Inductive resultKind : Type :=
| sync
| async.

Record BaseSQLiteDatabase : Type := mkClient {
  kind : resultKind;
  database : schema;
  faults : list (option string)
}.

Definition next_fault (c : BaseSQLiteDatabase) : option string :=
  match faults c with
  | Some code :: _ => Some code
  | _ => None
  end.

(** What [.get()] and [.run()] hand back, and what a method of the
    adapter hands back in turn: a value at once, or a Promise, given
    here with what it settles to. *)
Inductive awaitable (A : Type) : Type :=
| now (v : js A)
| promise (settles : result (js A)).
Arguments now {A} _.
Arguments promise {A} _.

(** [x ?? d] where [x] is what [.get()] handed back: a Promise is an
    object, so it is not nullish and stays as it is. *)
Definition coalesce {A} (x : awaitable A) (d : js A) : awaitable A :=
  match x with
  | now v => now (v ?? d)
  | promise p => promise p
  end.

(** [x?.p] where [x] is what [.get()] handed back: a Promise has no
    property of a row, so reading one gives [undefined]. *)
Definition property {A B} (x : awaitable A) (p : A -> js B) : js B :=
  match x with
  | now v => optional_chain v p
  | promise _ => undefined
  end.

(** [await x], as the caller of the adapter does with what a method
    handed back. *)
Definition await {A} (x : awaitable A) : result (js A) :=
  match x with
  | now v => Ok v
  | promise r => r
  end.

(** Computations on the client: a result, or a thrown exception,
    and the client afterwards. *)
Definition M (A : Type) : Type :=
  BaseSQLiteDatabase -> result A * BaseSQLiteDatabase.

Definition ret {A} (a : A) : M A := fun c => (Ok a, c).

Definition throw {A} (e : exn) : M A := fun c => (Throw e, c).

Definition bind {A B} (m : M A) (k : A -> M B) : M B :=
  fun c =>
    match m c with
    | (Ok a, c') => k a c'
    | (Throw e, c') => (Throw e, c')
    end.

(** [try { m } catch (err) { h err }]: it catches what [m] throws, not
    what a Promise that [m] hands back is rejected with. *)
Definition try_catch {A} (m : M A) (h : exn -> M A) : M A :=
  fun c =>
    match m c with
    | (Ok a, c') => (Ok a, c')
    | (Throw e, c') => h e c'
    end.

Notation "x <- m ;; k" := (bind m (fun x => k))
  (at level 61, m at next level, right associativity).

(** A method called and its result awaited: what the caller has in the
    end, and the client afterwards. *)
Definition awaited {A} (m : M (awaitable A))
    : BaseSQLiteDatabase -> result (js A) * BaseSQLiteDatabase :=
  fun c =>
    match m c with
    | (Ok x, c') => (await x, c')
    | (Throw e, c') => (Throw e, c')
    end.

(** The client once a statement has gone through: the database the
    statement left, and the faults that remain. *)
Definition after (c : BaseSQLiteDatabase) (d : schema) : BaseSQLiteDatabase :=
  mkClient (kind c) d (tl (faults c)).

(** A statement sent to the database: its outcome, and the client once
    it has gone through. *)
Definition issue {A} (q : statement A) (c : BaseSQLiteDatabase)
    : result A * BaseSQLiteDatabase :=
  match next_fault c with
  | Some code => (Throw (SqliteError code), after c (database c))
  | None => let (r, d) := q (database c) in (r, after c d)
  end.

(** How a client of each kind hands an outcome back: the synchronous
    one returns the value or throws, the asynchronous one returns a
    Promise that is fulfilled with the value or rejected. *)
Definition hand_back {A} (k : resultKind) (outcome : result (js A))
    : result (awaitable A) :=
  match k with
  | sync =>
      match outcome with
      | Ok v => Ok (now v)
      | Throw e => Throw e
      end
  | async => Ok (promise outcome)
  end.

(** The first row of a result, [undefined] if there is none. *)
Definition first {R} (rows : list R) : js R :=
  match rows with
  | r :: _ => val r
  | [] => undefined
  end.

Definition first_of {R} (outcome : result (list R)) : result (js R) :=
  match outcome with
  | Ok rows => Ok (first rows)
  | Throw e => Throw e
  end.

(** [q.get()].  The statement is sent when [.get()] is called, on
    either kind of client; the client afterwards is the client once the
    statement has gone through, also where nobody awaits the Promise. *)
Definition get {R} (q : statement (list R)) : M (awaitable R) :=
  fun c =>
    let (outcome, c') := issue q c in
    (hand_back (kind c) (first_of outcome), c').

(** [q.run()] *)
Definition run {A} (q : statement A) : M (awaitable A) :=
  fun c =>
    let (outcome, c') := issue q c in
    (hand_back (kind c)
       match outcome with
       | Ok a => Ok (val a)
       | Throw e => Throw e
       end, c').

(** ** The values the adapter receives and returns *)

(** The argument of [createUser].  Its declared type is the user
    without [id]; an [id] property that the caller passes all the same
    travels in the spread, so the record has room for it. *)
Module NewUser.
Record t : Type := mk {
  id : option string;
  name : js string;
  email : string;
  emailVerified : js Z;
  image : js string
}.
End NewUser.

(** [Partial<AdapterUser>], the argument of [updateUser]. *)
Module PartialUser.
Record t : Type := mk {
  id : option string;
  name : js string;
  email : option string;
  emailVerified : js Z;
  image : js string
}.
End PartialUser.

(** [Partial<AdapterSession> & Pick<AdapterSession, "sessionToken">] *)
Module PartialSession.
Record t : Type := mk {
  sessionToken : string;
  userId : option string;
  expires : option Z
}.
End PartialSession.

(** [AdapterAccount]: the optional properties are absent ([undefined])
    or present. *)
Module AdapterAccount.
Record t : Type := mk {
  userId : string;
  type : string;
  provider : string;
  providerAccountId : string;
  refresh_token : js string;
  access_token : js string;
  expires_at : js Z;
  token_type : js string;
  scope : js string;
  id_token : js string;
  session_state : js string
}.
End AdapterAccount.

(** The object [linkAccount] builds and returns.  A property the
    object does not have reads as [undefined]. *)
Module LinkedAccount.
Record t : Type := mk {
  userId : js string;
  type : js string;
  provider : js string;
  providerAccountId : js string;
  refresh_token : js string;
  access_token : js string;
  expires_at : js Z;
  token_type : js string;
  scope : js string;
  id_token : js string;
  session_state : js string
}.
End LinkedAccount.

(** The two keys [getUserByAccount] and [unlinkAccount] receive. *)
Module ProviderAccount.
Record t : Type := mk {
  provider : string;
  providerAccountId : string
}.
End ProviderAccount.

(** The two keys [useVerificationToken] receives. *)
Module TokenParams.
Record t : Type := mk {
  identifier : string;
  token : string
}.
End TokenParams.

(** The row [values({ ...data, id })] binds: the spread first, then
    [id], which replaces an [id] of the spread. *)
Definition user_values (data : NewUser.t) (id : string) : users.row :=
  users.mk id
           (to_column (NewUser.name data))
           (NewUser.email data)
           (to_column (NewUser.emailVerified data))
           (to_column (NewUser.image data)).

Definition account_values (a : AdapterAccount.t) : accounts.row :=
  accounts.mk (AdapterAccount.userId a)
              (AdapterAccount.type a)
              (AdapterAccount.provider a)
              (AdapterAccount.providerAccountId a)
              (to_column (AdapterAccount.refresh_token a))
              (to_column (AdapterAccount.access_token a))
              (to_column (AdapterAccount.expires_at a))
              (to_column (AdapterAccount.token_type a))
              (to_column (AdapterAccount.scope a))
              (to_column (AdapterAccount.id_token a))
              (to_column (AdapterAccount.session_state a)).

(** The assignment [set(data)] of [updateUser] on one row. *)
Definition user_set (data : PartialUser.t) (r : users.row) : users.row :=
  users.mk (set_required (PartialUser.id data) (users.id r))
           (set_nullable (PartialUser.name data) (users.name r))
           (set_required (PartialUser.email data) (users.email r))
           (set_nullable (PartialUser.emailVerified data)
                         (users.emailVerified r))
           (set_nullable (PartialUser.image data) (users.image r)).

(** The assignment [set(data)] of [updateSession] on one row. *)
Definition session_set (data : PartialSession.t) (r : sessions.row)
    : sessions.row :=
  sessions.mk (PartialSession.sessionToken data)
              (set_required (PartialSession.userId data) (sessions.userId r))
              (set_required (PartialSession.expires data)
                            (sessions.expires r)).

(** How [linkAccount] reads [updatedAccount], in the spread and in
    [updatedAccount.p]: when it is a row, a property is the row's
    column; when it is a Promise, which has none of these properties
    and nothing to spread, every one reads as [undefined]. *)
Definition reading : Type := forall B, (accounts.row -> js B) -> js B.

Definition row_read (row : accounts.row) : reading := fun _ p => p row.

Definition promise_read : reading := fun _ _ => undefined.

(** The object [linkAccount] builds: the spread of [updatedAccount],
    then [type] again, then each optional property again as
    [updatedAccount.p ?? undefined]. *)
Definition account_from (updatedAccount : reading) : LinkedAccount.t :=
  LinkedAccount.mk
    (updatedAccount _ (fun r => val (accounts.userId r)))
    (updatedAccount _ (fun r => val (accounts.type r)))
    (updatedAccount _ (fun r => val (accounts.provider r)))
    (updatedAccount _ (fun r => val (accounts.providerAccountId r)))
    (updatedAccount _ (fun r => from_column (accounts.refresh_token r))
       ?? undefined)
    (updatedAccount _ (fun r => from_column (accounts.access_token r))
       ?? undefined)
    (updatedAccount _ (fun r => from_column (accounts.expires_at r))
       ?? undefined)
    (updatedAccount _ (fun r => from_column (accounts.token_type r))
       ?? undefined)
    (updatedAccount _ (fun r => from_column (accounts.scope r))
       ?? undefined)
    (updatedAccount _ (fun r => from_column (accounts.id_token r))
       ?? undefined)
    (updatedAccount _ (fun r => from_column (accounts.session_state r))
       ?? undefined).

(** The object built from a stored row. *)
Definition account_of_row (updatedAccount : accounts.row)
    : LinkedAccount.t :=
  account_from (row_read updatedAccount).

(** ** [SQLiteDrizzleAdapter] *)

(** [randomUUID] is the string [crypto.randomUUID()] returns in this
    call. *)
Definition createUser (randomUUID : string) (data : NewUser.t)
    : M (awaitable users.row) :=
  get (insert_users (user_values data randomUUID)).

Definition getUser (data : string) : M (awaitable users.row) :=
  r <- get (select_users (fun u => eq (users.id u) data)) ;;
  ret (coalesce r null).

Definition getUserByEmail (data : string) : M (awaitable users.row) :=
  r <- get (select_users (fun u => eq (users.email u) data)) ;;
  ret (coalesce r null).

Definition createSession (data : sessions.row)
    : M (awaitable sessions.row) :=
  get (insert_sessions data).

Definition getSessionAndUser (data : string) : M (awaitable SessionAndUser) :=
  r <- get (select_sessions_innerJoin_users
              (fun s => eq (sessions.sessionToken s) data)
              (fun s u => eq (users.id u) (sessions.userId s))) ;;
  ret (coalesce r null).

Definition updateUser (data : PartialUser.t) : M (awaitable users.row) :=
  if not_string (PartialUser.id data) then throw (Error "No user id.")
  else
    get (update_users
           (user_set data)
           (fun u => match PartialUser.id data with
                     | Some id => eq (users.id u) id
                     | None => false
                     end)).

Definition updateSession (data : PartialSession.t)
    : M (awaitable sessions.row) :=
  get (update_sessions
         (session_set data)
         (fun s => eq (sessions.sessionToken s)
                      (PartialSession.sessionToken data))).

(** [updatedAccount] is what [.get()] handed back.  Reading
    [updatedAccount.type] throws when it is [undefined]; when it is a
    Promise the object is built from the Promise, and a rejection of
    the Promise is nobody's to catch. *)
Definition linkAccount (rawAccount : AdapterAccount.t)
    : M (awaitable LinkedAccount.t) :=
  updatedAccount <- get (insert_accounts (account_values rawAccount)) ;;
  match updatedAccount with
  | now (val updatedAccount) =>
      ret (now (val (account_of_row updatedAccount)))
  | now _ => throw (TypeError "Cannot read properties of undefined")
  | promise _ => ret (now (val (account_from promise_read)))
  end.

Definition getUserByAccount (account : ProviderAccount.t)
    : M (awaitable users.row) :=
  results <- get (select_accounts_leftJoin_users
                    (fun a u => eq (users.id u) (accounts.userId a))
                    (fun a =>
                       and_ (eq (accounts.provider a)
                                (ProviderAccount.provider account))
                            (eq (accounts.providerAccountId a)
                                (ProviderAccount.providerAccountId
                                   account)))) ;;
  ret (now (property results users ?? null)).

Definition deleteSession (sessionToken : string)
    : M (awaitable sessions.row) :=
  r <- get (delete_sessions
              (fun s => eq (sessions.sessionToken s) sessionToken)) ;;
  ret (coalesce r null).

Definition createVerificationToken (token : verificationTokens.row)
    : M (awaitable verificationTokens.row) :=
  get (insert_verificationTokens token).

Definition useVerificationToken (token : TokenParams.t)
    : M (awaitable verificationTokens.row) :=
  try_catch
    (r <- get (delete_verificationTokens
                 (fun t =>
                    and_ (eq (verificationTokens.identifier t)
                             (TokenParams.identifier token))
                         (eq (verificationTokens.token t)
                             (TokenParams.token token)))) ;;
     ret (coalesce r null))
    (fun err => throw (Error "No verification token found.")).

Definition deleteUser (id : string) : M (awaitable users.row) :=
  get (delete_users (fun u => eq (users.id u) id)).

Definition unlinkAccount (account : ProviderAccount.t)
    : M (awaitable AdapterAccount.t) :=
  _ <- run (delete_accounts
              (fun a =>
                 and_ (eq (accounts.providerAccountId a)
                          (ProviderAccount.providerAccountId account))
                      (eq (accounts.provider a)
                          (ProviderAccount.provider account)))) ;;
  ret (now undefined).

(** ** Calls of the adapter

    One constructor per method, with the arguments of the call; for
    [createUser] also the identifier drawn in the call.  [invoke] is
    the client after the call, whether it returned or threw. *)
Inductive call : Type :=
| CreateUser (randomUUID : string) (data : NewUser.t)
| GetUser (id : string)
| GetUserByEmail (email : string)
| CreateSession (data : sessions.row)
| GetSessionAndUser (sessionToken : string)
| UpdateUser (data : PartialUser.t)
| UpdateSession (data : PartialSession.t)
| LinkAccount (rawAccount : AdapterAccount.t)
| GetUserByAccount (account : ProviderAccount.t)
| DeleteSession (sessionToken : string)
| CreateVerificationToken (token : verificationTokens.row)
| UseVerificationToken (token : TokenParams.t)
| DeleteUser (id : string)
| UnlinkAccount (account : ProviderAccount.t).

Definition invoke (k : call) (c : BaseSQLiteDatabase) : BaseSQLiteDatabase :=
  match k with
  | CreateUser randomUUID data => snd (createUser randomUUID data c)
  | GetUser id => snd (getUser id c)
  | GetUserByEmail email => snd (getUserByEmail email c)
  | CreateSession data => snd (createSession data c)
  | GetSessionAndUser sessionToken => snd (getSessionAndUser sessionToken c)
  | UpdateUser data => snd (updateUser data c)
  | UpdateSession data => snd (updateSession data c)
  | LinkAccount rawAccount => snd (linkAccount rawAccount c)
  | GetUserByAccount account => snd (getUserByAccount account c)
  | DeleteSession sessionToken => snd (deleteSession sessionToken c)
  | CreateVerificationToken token => snd (createVerificationToken token c)
  | UseVerificationToken token => snd (useVerificationToken token c)
  | DeleteUser id => snd (deleteUser id c)
  | UnlinkAccount account => snd (unlinkAccount account c)
  end.

(** The clients a sequence of calls reaches from an empty database. *)
Inductive reachable : BaseSQLiteDatabase -> Prop :=
| reachable_empty kind faults : reachable (mkClient kind empty_schema faults)
| reachable_invoke k c : reachable c -> reachable (invoke k c).

(** A statement that takes consistent databases to consistent ones. *)
Definition keeps {A} (q : statement A) : Prop :=
  forall d, consistent d -> consistent (snd (q d)).

(** ** The contract of [linkAccount]'s result, in the words of the
    specification

    The stored row with every optional field that is null given as
    absent, the required fields as stored.  [account_of_row] above is
    what the code builds; the two are compared below. *)
Definition absent_if_null {A} (column : option A) : js A :=
  match column with
  | None => undefined
  | Some a => val a
  end.

Definition normalized (stored : accounts.row) : LinkedAccount.t :=
  LinkedAccount.mk
    (val (accounts.userId stored))
    (val (accounts.type stored))
    (val (accounts.provider stored))
    (val (accounts.providerAccountId stored))
    (absent_if_null (accounts.refresh_token stored))
    (absent_if_null (accounts.access_token stored))
    (absent_if_null (accounts.expires_at stored))
    (absent_if_null (accounts.token_type stored))
    (absent_if_null (accounts.scope stored))
    (absent_if_null (accounts.id_token stored))
    (absent_if_null (accounts.session_state stored)).

(** ** Sample data *)

Definition alice : users.row :=
  users.mk "u1" (Some "Alice") "a@b.com" None None.

(** A user whose identifier is the empty string. *)
Definition blank : users.row :=
  users.mk "" None "blank@b.com" None None.

Definition github_123 : accounts.row :=
  accounts.mk "u1" "oauth" "github" "123"
              None (Some "gho_1") (Some 3600%Z) (Some "bearer") None None None.

Definition session_s1 : sessions.row := sessions.mk "s1" "u1" 1000.

Definition token_abc : verificationTokens.row :=
  verificationTokens.mk "x@y.com" "abc" 2000.

Definition sample : schema :=
  mkSchema [alice] [github_123] [session_s1] [token_abc].

(** A synchronous client whose connection is sound, and one whose
    next statement fails. *)
Definition sound : BaseSQLiteDatabase := mkClient sync sample [].
Definition busy : BaseSQLiteDatabase :=
  mkClient sync sample [Some "SQLITE_BUSY"].

(** The same two with an asynchronous client. *)
Definition sound_async : BaseSQLiteDatabase := mkClient async sample [].
Definition busy_async : BaseSQLiteDatabase :=
  mkClient async sample [Some "SQLITE_BUSY"].

Definition carol : NewUser.t :=
  NewUser.mk None (val "Carol") "c@d.com" null undefined.

(** A creation input that brings an [id] of its own. *)
Definition dave : NewUser.t :=
  NewUser.mk (Some "mine") (val "Dave") "d@d.com" null undefined.

(** A database that holds the user with the empty identifier, and an
    update addressed to it. *)
Definition with_blank : BaseSQLiteDatabase :=
  mkClient sync (mkSchema [alice; blank] [] [] []) [].

Definition rename_blank : PartialUser.t :=
  PartialUser.mk (Some "") (val "Blank") None undefined undefined.

Definition rename_alice : PartialUser.t :=
  PartialUser.mk (Some "u1") (val "Alicia") None undefined null.

Definition rename_nobody : PartialUser.t :=
  PartialUser.mk (Some "u2") (val "Nobody") None undefined undefined.

Definition extend_s2 : PartialSession.t :=
  PartialSession.mk "s2" None (Some 5000%Z).

(** An account to link: one token given, one given as [null], the
    others left out. *)
Definition gitlab_9 : AdapterAccount.t :=
  AdapterAccount.mk "u1" "oauth" "gitlab" "9"
    null (val "glpat_1") undefined undefined undefined undefined undefined.

(** A database in which an account references a user that is not
    there: the foreign key rules it out, the adapter guards against it
    all the same. *)
Definition orphaned : BaseSQLiteDatabase :=
  mkClient sync (mkSchema [] [github_123] [] []) [].

(** A database in which a session references a user that is not
    there. *)
Definition orphaned_session : BaseSQLiteDatabase :=
  mkClient sync (mkSchema [] [] [session_s1] []) [].

(** ** What a call throws *)

Definition thrown {A} (r : result A) : option exn :=
  match r with
  | Ok _ => None
  | Throw e => Some e
  end.

(** The exception a call of the adapter ends with once awaited, if it
    ends with one. *)
Definition raises (k : call) (c : BaseSQLiteDatabase) : option exn :=
  match k with
  | CreateUser randomUUID data =>
      thrown (fst (awaited (createUser randomUUID data) c))
  | GetUser id => thrown (fst (awaited (getUser id) c))
  | GetUserByEmail email => thrown (fst (awaited (getUserByEmail email) c))
  | CreateSession data => thrown (fst (awaited (createSession data) c))
  | GetSessionAndUser sessionToken =>
      thrown (fst (awaited (getSessionAndUser sessionToken) c))
  | UpdateUser data => thrown (fst (awaited (updateUser data) c))
  | UpdateSession data => thrown (fst (awaited (updateSession data) c))
  | LinkAccount rawAccount =>
      thrown (fst (awaited (linkAccount rawAccount) c))
  | GetUserByAccount account =>
      thrown (fst (awaited (getUserByAccount account) c))
  | DeleteSession sessionToken =>
      thrown (fst (awaited (deleteSession sessionToken) c))
  | CreateVerificationToken token =>
      thrown (fst (awaited (createVerificationToken token) c))
  | UseVerificationToken token =>
      thrown (fst (awaited (useVerificationToken token) c))
  | DeleteUser id => thrown (fst (awaited (deleteUser id) c))
  | UnlinkAccount account =>
      thrown (fst (awaited (unlinkAccount account) c))
  end.

(** A statement that, when it throws, leaves the database as it was. *)
Definition atomic {A} (q : statement A) : Prop :=
  forall d e, fst (q d) = Throw e -> snd (q d) = d.

(** The compound keys of accounts and verification tokens. *)
Definition account_key (a : accounts.row) : string * string :=
  (accounts.provider a, accounts.providerAccountId a).

Definition token_key (t : verificationTokens.row) : string * string :=
  (verificationTokens.identifier t, verificationTokens.token t).

(** ** More sample data *)

(** A second user who shares Alice's email address. *)
Definition alias : NewUser.t :=
  NewUser.mk None (val "Alias") "a@b.com" null undefined.

Definition session_s2 : sessions.row := sessions.mk "s2" "u1" 3000.

(** A session for a user that is not stored. *)
Definition session_ghost : sessions.row := sessions.mk "s3" "u9" 3000.

Definition token_def : verificationTokens.row :=
  verificationTokens.mk "x@y.com" "def" 4000.

(** An update that moves session s1 to a user that is not stored. *)
Definition move_s1 : PartialSession.t :=
  PartialSession.mk "s1" (Some "u9") None.

Definition extend_s1 : PartialSession.t :=
  PartialSession.mk "s1" None (Some 5000%Z).

(** An account for the user created under the identifier "3f2c". *)
Definition gitlab_carol : AdapterAccount.t :=
  AdapterAccount.mk "3f2c" "oauth" "gitlab" "7"
    undefined undefined undefined undefined undefined undefined undefined.

(** An asynchronous client reached from an empty database by eight
    calls, some of which fail: a store fault, a second user under a
    taken identifier, a session for a user that is not stored. *)
Definition grown : BaseSQLiteDatabase :=
  invoke (CreateVerificationToken token_def)
    (invoke (LinkAccount gitlab_carol)
       (invoke (CreateSession session_ghost)
          (invoke (CreateSession (sessions.mk "s9" "3f2c" 10))
             (invoke (CreateUser "3f2c" dave)
                (invoke (CreateUser "77aa" alias)
                   (invoke (CreateUser "3f2c" carol)
                      (invoke (CreateUser "3f2c" carol)
                         (mkClient async empty_schema
                            [Some "SQLITE_BUSY"])))))))).

(** * Properties *)

(** ** Column predicates *)

Lemma eq_true_iff a b : eq a b = true <-> a = b.
Proof. unfold eq. apply String.eqb_eq. Qed.

Lemma eq_false_iff a b : eq a b = false <-> a <> b.
Proof. unfold eq. apply String.eqb_neq. Qed.

Lemma and_true_iff a b : and_ a b = true <-> a = true /\ b = true.
Proof. unfold and_. apply andb_true_iff. Qed.

Lemma has_user_true_iff us uid :
  has_user us uid = true <-> exists u, In u us /\ users.id u = uid.
Proof.
  unfold has_user. rewrite existsb_exists.
  split; intros [u [Hin H]]; exists u; split; auto; now apply eq_true_iff.
Qed.

Lemma has_user_false_iff us uid :
  has_user us uid = false <-> forall u, In u us -> users.id u <> uid.
Proof.
  split.
  - intros H u Hin Hid.
    assert (has_user us uid = true) by (apply has_user_true_iff; eauto).
    congruence.
  - intros H. destruct (has_user us uid) eqn:E; auto.
    apply has_user_true_iff in E. destruct E as [u [Hin Hid]].
    exfalso. eapply H; eauto.
Qed.

(** ** Lists of rows *)

Section Rows.
Context {R : Type}.
Implicit Types (p q : R -> bool) (l : list R).

Lemma existsb_pointwise p q l :
  (forall r, p r = q r) -> existsb p l = existsb q l.
Proof.
  intros H. induction l as [|a l IH]; simpl; auto.
  now rewrite H, IH.
Qed.

Lemma filter_none p l :
  (forall r, In r l -> p r = false) -> filter p l = [].
Proof.
  induction l as [|a l IH]; intros H; simpl; auto.
  rewrite (H a) by (left; auto). apply IH. intros; apply H; right; auto.
Qed.

Lemma filter_none_inv p l r :
  filter p l = [] -> In r l -> p r = false.
Proof.
  intros H Hin. destruct (p r) eqn:E; auto.
  assert (In r (filter p l)) by (apply filter_In; auto).
  rewrite H in *. contradiction.
Qed.

Lemma filter_negb_none p l :
  (forall r, In r l -> p r = false) -> filter (fun r => negb (p r)) l = l.
Proof.
  induction l as [|a l IH]; intros H; simpl; auto.
  rewrite (H a) by (left; auto). simpl. f_equal.
  apply IH. intros; apply H; right; auto.
Qed.

Lemma filter_negb_gone p l r :
  In r (filter (fun r => negb (p r)) l) -> p r = false.
Proof.
  intros H. apply filter_In in H. destruct H as [_ H].
  now apply negb_true_iff.
Qed.

Lemma first_filter_In p l r :
  first (filter p l) = val r -> In r l /\ p r = true.
Proof.
  intros H. destruct (filter p l) as [|a m] eqn:E; simpl in H.
  - discriminate.
  - injection H as ->. apply filter_In. rewrite E. left; auto.
Qed.

Lemma first_filter_some p l r :
  In r l -> p r = true -> exists r', first (filter p l) = val r'.
Proof.
  intros Hin Hp. destruct (filter p l) as [|a m] eqn:E.
  - pose proof (@filter_none_inv p l r E Hin). congruence.
  - exists a. reflexivity.
Qed.

Lemma filter_all p l :
  (forall r, In r l -> p r = true) -> filter p l = l.
Proof.
  induction l as [|a l IH]; intros H; simpl; auto.
  rewrite (H a) by (left; auto). f_equal.
  apply IH. intros; apply H; right; auto.
Qed.

(** Two rows of a table with unique keys that agree on the key are
    one row. *)
Lemma unique_In_eq (same : R -> R -> bool) l a b :
  unique same l = true -> In a l -> In b l ->
  same a b = true -> same b a = true -> a = b.
Proof.
  induction l as [|r l IH]; simpl; [contradiction|].
  intros U Ha Hb Sab Sba.
  apply andb_true_iff in U. destruct U as [U1 U2].
  apply negb_true_iff in U1.
  assert (Hno : forall x, In x l -> same r x = false).
  { intros x Hx. destruct (same r x) eqn:E; auto.
    assert (existsb (same r) l = true)
      by (apply existsb_exists; eauto).
    congruence. }
  destruct Ha as [<-|Ha], Hb as [<-|Hb]; auto.
  - rewrite (Hno b Hb) in Sab. discriminate.
  - rewrite (Hno a Ha) in Sba. discriminate.
Qed.

(** A condition that pins the key selects at most one row of a
    table with unique keys. *)
Lemma filter_unique (same : R -> R -> bool) p l a :
  unique same l = true ->
  (forall x y, p x = true -> p y = true -> same x y = true) ->
  In a l -> p a = true -> filter p l = [a].
Proof.
  intros U Hp. induction l as [|r l IH]; simpl; [contradiction|].
  simpl in U. apply andb_true_iff in U. destruct U as [U1 U2].
  apply negb_true_iff in U1.
  assert (Hno : forall x, In x l -> same r x = false).
  { intros x Hx. destruct (same r x) eqn:E; auto.
    assert (existsb (same r) l = true)
      by (apply existsb_exists; eauto).
    congruence. }
  intros Hin Ha. destruct (p r) eqn:Er.
  - assert (Hnil : filter p l = []).
    { apply filter_none. intros x Hx.
      destruct (p x) eqn:Ex; auto.
      rewrite <- (Hno x Hx). symmetry. now apply Hp. }
    rewrite Hnil. destruct Hin as [->|Hin]; auto.
    specialize (Hno a Hin). rewrite (Hp r a Er Ha) in Hno.
    discriminate.
  - destruct Hin as [->|Hin]; [congruence|]. now apply IH.
Qed.

Lemma update_rows_none (f : R -> R) p l :
  (forall r, In r l -> p r = false) -> update_rows f p l = l.
Proof.
  unfold update_rows.
  induction l as [|a l IH]; intros H; simpl; auto.
  rewrite (H a) by (left; auto). f_equal.
  apply IH. intros; apply H; right; auto.
Qed.
End Rows.

(** ** Running statements *)

Lemma schema_eta d :
  mkSchema (users_of d) (accounts_of d) (sessions_of d)
           (verificationTokens_of d) = d.
Proof. destruct d; reflexivity. Qed.

(** Awaiting what [.get()] handed back gives the outcome of the
    statement, on a client of either kind. *)
Lemma awaited_get {R} (q : statement (list R)) c :
  awaited (get q) c = (first_of (fst (issue q c)), snd (issue q c)).
Proof.
  unfold awaited, get, hand_back.
  destruct (issue q c) as [[rows|e] c'], (kind c); reflexivity.
Qed.

Lemma get_fault {R} (q : statement (list R)) c code :
  next_fault c = Some code ->
  awaited (get q) c = (Throw (SqliteError code), after c (database c)).
Proof. intros H. rewrite awaited_get. unfold issue. rewrite H. reflexivity. Qed.

Lemma get_rows {R} (q : statement (list R)) c rows d :
  next_fault c = None ->
  q (database c) = (Ok rows, d) ->
  awaited (get q) c = (Ok (first rows), after c d).
Proof.
  intros H Hq. rewrite awaited_get. unfold issue. rewrite H, Hq.
  reflexivity.
Qed.

(** A call that returns has met no fault. *)
Lemma get_returns {R} (q : statement (list R)) c x c' :
  awaited (get q) c = (Ok x, c') ->
  next_fault c = None /\
  exists rows d, q (database c) = (Ok rows, d) /\ x = first rows
                 /\ c' = after c d.
Proof.
  rewrite awaited_get. unfold issue.
  destruct (next_fault c); [discriminate|].
  destruct (q (database c)) as [[rows|e] d]; [|discriminate].
  simpl. intros H. injection H as <- <-. split; auto.
  exists rows, d. auto.
Qed.

(** What a statement run through [get] gives on a store that answers. *)
Lemma get_answers {R} (q : statement (list R)) c :
  next_fault c = None ->
  awaited (get q) c =
    (match fst (q (database c)) with
     | Ok rows => Ok (first rows)
     | Throw e => Throw e
     end, after c (snd (q (database c)))).
Proof.
  intros H. rewrite awaited_get. unfold issue. rewrite H.
  destruct (q (database c)) as [[rows|e] d]; reflexivity.
Qed.

(** [get() ?? d] awaited: on a synchronous client the default stands
    in for a missing row; on an asynchronous one [??] met the Promise,
    and what the Promise settles to comes through as it is. *)
Lemma awaited_coalesce {R} (q : statement (list R)) d c :
  awaited (r <- get q ;; ret (coalesce r d)) c =
    (match fst (awaited (get q) c) with
     | Ok v => Ok match kind c with
                  | sync => v ?? d
                  | async => v
                  end
     | Throw e => Throw e
     end, snd (awaited (get q) c)).
Proof.
  unfold awaited, bind, ret, get, hand_back.
  destruct (issue q c) as [[rows|e] c'], (kind c); reflexivity.
Qed.

(** A row that was found comes through [?? d] on either kind. *)
Lemma found_either_kind {A} k (x : A) d :
  match k with
  | sync => val x ?? d
  | async => val x
  end = val x.
Proof. destruct k; reflexivity. Qed.

(** ** createUser *)

(** C1, as the code has it.  [createUser] binds the identifier that
    [crypto.randomUUID()] produced, whether or not the input carries an
    [id] of its own.  When no fault occurs and no stored user has that
    identifier, the row is appended to the users table and returned;
    and whenever the call returns, it returned that row, its [id] is
    the generated identifier, and no user had it before. *)
Theorem createUser_generated_id randomUUID data c :
  let row := user_values data randomUUID in
  users.id row = randomUUID
  /\ (next_fault c = None ->
      has_user (users_of (database c)) randomUUID = false ->
      awaited (createUser randomUUID data) c =
        (Ok (val row),
         after c (with_users (database c) (users_of (database c) ++ [row]))))
  /\ (forall r c',
      awaited (createUser randomUUID data) c = (Ok r, c') ->
      r = val row
      /\ has_user (users_of (database c)) randomUUID = false
      /\ users_of (database c') = users_of (database c) ++ [row]).
Proof.
  intros row.
  assert (Hsame : existsb (same_user row) (users_of (database c))
                  = has_user (users_of (database c)) randomUUID).
  { unfold has_user, same_user. apply existsb_pointwise; intros u.
    subst row; simpl. unfold eq. apply String.eqb_sym. }
  split; [reflexivity|]. split.
  - intros Hf Hfresh. unfold createUser.
    apply (get_rows _ c [row]); auto.
    unfold insert_users. fold row. rewrite Hsame, Hfresh. reflexivity.
  - intros r c' H. unfold createUser in H. apply get_returns in H.
    destruct H as [_ [rows [d [Hq [-> ->]]]]].
    unfold insert_users in Hq. fold row in Hq. rewrite Hsame in Hq.
    destruct (has_user (users_of (database c)) randomUUID);
      [discriminate|].
    injection Hq as <- <-. auto.
Qed.

Lemma createUser_generated_id_witness :
  awaited (createUser "3f2c" carol) sound =
    (Ok (val (user_values carol "3f2c")),
     after sound (with_users sample [alice; user_values carol "3f2c"]))
  /\ has_user (users_of sample) "3f2c" = false.
Proof.
  split.
  - apply (proj1 (proj2 (createUser_generated_id "3f2c" carol sound)));
      reflexivity.
  - apply (proj2 (proj2 (createUser_generated_id "3f2c" carol sound))
             (val (user_values carol "3f2c"))
             (after sound
                (with_users sample [alice; user_values carol "3f2c"]))).
    reflexivity.
Defined.

(** C1, as the claim states it, fails: an input that supplies the id
    ["mine"] is stored and returned under the generated identifier. *)
Lemma createUser_overwrites_supplied_id :
  NewUser.id dave = Some "mine"
  /\ exists row c',
       awaited (createUser "3f2c" dave) sound = (Ok (val row), c')
       /\ In row (users_of (database c'))
       /\ users.id row = "3f2c"
       /\ users.id row <> "mine".
Proof.
  split; [reflexivity|].
  exists (user_values dave "3f2c"),
         (after sound (with_users sample [alice; user_values dave "3f2c"])).
  repeat split.
  - simpl. right. left. reflexivity.
  - simpl. discriminate.
Qed.

(** ** useVerificationToken *)

Lemma delete_verificationTokens_none w d :
  (forall t, In t (verificationTokens_of d) -> w t = false) ->
  delete_verificationTokens w d = (Ok [], d).
Proof.
  intros H. unfold delete_verificationTokens, with_verificationTokens.
  rewrite filter_none, filter_negb_none by assumption.
  now rewrite schema_eta.
Qed.

Lemma token_where_true token t :
  and_ (eq (verificationTokens.identifier t) (TokenParams.identifier token))
       (eq (verificationTokens.token t) (TokenParams.token token)) = true
  <-> verificationTokens.identifier t = TokenParams.identifier token
      /\ verificationTokens.token t = TokenParams.token token.
Proof. rewrite and_true_iff, !eq_true_iff. tauto. Qed.

Lemma token_where_false token t :
  ~ (verificationTokens.identifier t = TokenParams.identifier token
     /\ verificationTokens.token t = TokenParams.token token) ->
  and_ (eq (verificationTokens.identifier t) (TokenParams.identifier token))
       (eq (verificationTokens.token t) (TokenParams.token token)) = false.
Proof.
  intros H. apply not_true_is_false. intros E.
  apply H. now apply token_where_true.
Qed.

(** [useVerificationToken] awaited.  On a synchronous client [catch]
    replaces what the deletion throws and [?? null] stands in for a
    missing row; on an asynchronous client both meet the Promise and
    change nothing. *)
Lemma useVerificationToken_awaited token c :
  let q := delete_verificationTokens
             (fun t =>
                and_ (eq (verificationTokens.identifier t)
                         (TokenParams.identifier token))
                     (eq (verificationTokens.token t)
                         (TokenParams.token token))) in
  awaited (useVerificationToken token) c =
    (match fst (awaited (get q) c) with
     | Ok v => Ok match kind c with
                  | sync => v ?? null
                  | async => v
                  end
     | Throw e => Throw match kind c with
                        | sync => Error "No verification token found."
                        | async => e
                        end
     end, snd (awaited (get q) c)).
Proof.
  intros q. unfold useVerificationToken. fold q.
  unfold awaited, try_catch, bind, ret, throw, get, hand_back.
  destruct (issue q c) as [[rows|e] c'], (kind c); reflexivity.
Qed.

Lemma useVerificationToken_faulted token c code :
  next_fault c = Some code ->
  awaited (useVerificationToken token) c =
    (Throw match kind c with
           | sync => Error "No verification token found."
           | async => SqliteError code
           end, after c (database c)).
Proof.
  intros H. rewrite useVerificationToken_awaited. cbv zeta.
  rewrite (get_fault _ c code H). reflexivity.
Qed.

Lemma useVerificationToken_deletes token c :
  next_fault c = None ->
  let w t :=
    and_ (eq (verificationTokens.identifier t) (TokenParams.identifier token))
         (eq (verificationTokens.token t) (TokenParams.token token)) in
  awaited (useVerificationToken token) c =
    (Ok match kind c with
        | sync => first (filter w (verificationTokens_of (database c))) ?? null
        | async => first (filter w (verificationTokens_of (database c)))
        end,
     after c (with_verificationTokens (database c)
                (filter (fun t => negb (w t))
                        (verificationTokens_of (database c))))).
Proof.
  intros H w. rewrite useVerificationToken_awaited. cbv zeta.
  erewrite get_rows by (auto; reflexivity). reflexivity.
Qed.

Lemma useVerificationToken_unmatched token c :
  next_fault c = None ->
  (forall t, In t (verificationTokens_of (database c)) ->
     ~ (verificationTokens.identifier t = TokenParams.identifier token
        /\ verificationTokens.token t = TokenParams.token token)) ->
  awaited (useVerificationToken token) c =
    (Ok match kind c with
        | sync => null
        | async => undefined
        end, after c (database c)).
Proof.
  intros H Hnone. rewrite useVerificationToken_awaited. cbv zeta.
  rewrite (get_rows _ c [] (database c) H).
  - simpl. destruct (kind c); reflexivity.
  - apply delete_verificationTokens_none.
    intros t Hin. apply token_where_false. auto.
Qed.

(** C2, as the code has it.  On a synchronous client a fault of the
    store during the deletion, whatever its code, surfaces as the one
    error "No verification token found."; that is then the only
    exception the call throws, and it is thrown only on such a fault.
    When the store works and no row matches the pair, on a client of
    either kind, the deletion does not fail and the call gives no
    error: it gives no row ([null] on a synchronous client) and leaves
    the database as it was. *)
Theorem useVerificationToken_fault_or_absent token c :
  (forall code,
     kind c = sync -> next_fault c = Some code ->
     awaited (useVerificationToken token) c =
       (Throw (Error "No verification token found."),
        after c (database c)))
  /\ (next_fault c = None ->
      (forall t, In t (verificationTokens_of (database c)) ->
         ~ (verificationTokens.identifier t = TokenParams.identifier token
            /\ verificationTokens.token t = TokenParams.token token)) ->
      exists x,
        awaited (useVerificationToken token) c = (Ok x, after c (database c))
        /\ (x = null \/ x = undefined)
        /\ (kind c = sync -> x = null))
  /\ (forall e c',
      kind c = sync ->
      awaited (useVerificationToken token) c = (Throw e, c') ->
      e = Error "No verification token found."
      /\ exists code, next_fault c = Some code).
Proof.
  split; [|split].
  - intros code K F.
    rewrite (useVerificationToken_faulted token c code F), K. reflexivity.
  - intros F Hnone.
    rewrite (useVerificationToken_unmatched token c F Hnone).
    eexists. split; [reflexivity|].
    destruct (kind c); split; auto; discriminate.
  - intros e c' K H. destruct (next_fault c) as [code|] eqn:F.
    + rewrite (useVerificationToken_faulted token c code F), K in H.
      injection H as <- _. split; eauto.
    + rewrite (useVerificationToken_deletes token c F) in H. discriminate.
Qed.

Lemma useVerificationToken_fault_or_absent_witness :
  awaited (useVerificationToken (TokenParams.mk "x@y.com" "abc")) busy =
    (Throw (Error "No verification token found."), after busy sample)
  /\ exists x,
       awaited (useVerificationToken (TokenParams.mk "x@y.com" "zzz"))
         sound_async
       = (Ok x, after sound_async sample)
       /\ (x = null \/ x = undefined)
       /\ (kind sound_async = sync -> x = null).
Proof.
  split.
  - apply (proj1 (useVerificationToken_fault_or_absent
                    (TokenParams.mk "x@y.com" "abc") busy) "SQLITE_BUSY");
      reflexivity.
  - apply (proj1 (proj2 (useVerificationToken_fault_or_absent
                           (TokenParams.mk "x@y.com" "zzz") sound_async)));
      [reflexivity|].
    intros t [<-|[]] [_ H]. discriminate.
Defined.

(** C2, as the claim states it, fails: with a working store and no row
    for the pair, no error is surfaced; the call returns [null]. *)
Lemma useVerificationToken_absent_is_not_an_error :
  (forall t, In t (verificationTokens_of sample) ->
     verificationTokens.token t <> "zzz")
  /\ awaited (useVerificationToken (TokenParams.mk "x@y.com" "zzz")) sound =
       (Ok null, after sound sample)
  /\ fst (awaited (useVerificationToken (TokenParams.mk "x@y.com" "zzz"))
            sound)
     <> Throw (Error "No verification token found.").
Proof.
  split; [|split].
  - intros t [<-|[]]. discriminate.
  - reflexivity.
  - discriminate.
Qed.

(** C3.  Once a call has consumed the token for a pair, returning its
    row, the row was one of the stored tokens for that pair, no token
    for the pair is left in the store, and a second call with the same
    pair never gives a row again.  On a synchronous client it gives
    [null], or the error "No verification token found." when the store
    fails; on an asynchronous client it gives [undefined], or the
    store's own error. *)
Theorem useVerificationToken_single_use token c row c1 :
  awaited (useVerificationToken token) c = (Ok (val row), c1) ->
  (In row (verificationTokens_of (database c))
   /\ verificationTokens.identifier row = TokenParams.identifier token
   /\ verificationTokens.token row = TokenParams.token token)
  /\ (forall t, In t (verificationTokens_of (database c1)) ->
        ~ (verificationTokens.identifier t = TokenParams.identifier token
           /\ verificationTokens.token t = TokenParams.token token))
  /\ awaited (useVerificationToken token) c1 =
       (match kind c1, next_fault c1 with
        | sync, None => Ok null
        | sync, Some _ => Throw (Error "No verification token found.")
        | async, None => Ok undefined
        | async, Some code => Throw (SqliteError code)
        end, after c1 (database c1)).
Proof.
  intros H.
  destruct (next_fault c) as [code|] eqn:F.
  { rewrite (useVerificationToken_faulted token c code F) in H.
    discriminate. }
  rewrite (useVerificationToken_deletes token c F) in H. cbv zeta in H.
  set (w := fun t : verificationTokens.row => and_ _ _) in H.
  injection H as Hrow <-.
  assert (Hfirst : first (filter w (verificationTokens_of (database c)))
                   = val row).
  { destruct (kind c); auto.
    destruct (first _) as [| |r]; simpl in Hrow; congruence. }
  assert (Hleft : forall t,
             In t (filter (fun t => negb (w t))
                          (verificationTokens_of (database c))) ->
             ~ (verificationTokens.identifier t = TokenParams.identifier token
                /\ verificationTokens.token t = TokenParams.token token)).
  { intros t Hin Hm. apply filter_negb_gone in Hin.
    apply token_where_true in Hm. unfold w in Hin. congruence. }
  split; [|split]; auto.
  - apply first_filter_In in Hfirst.
    destruct Hfirst as [Hin Hw]. apply token_where_true in Hw. tauto.
  - destruct (next_fault (after c _)) as [code|] eqn:F1.
    + rewrite (useVerificationToken_faulted token _ code F1).
      simpl. destruct (kind c); reflexivity.
    + rewrite (useVerificationToken_unmatched token _ F1 Hleft).
      simpl. destruct (kind c); reflexivity.
Qed.

Lemma useVerificationToken_single_use_witness :
  awaited (useVerificationToken (TokenParams.mk "x@y.com" "abc")) sound =
    (Ok (val token_abc), after sound (with_verificationTokens sample []))
  /\ awaited (useVerificationToken (TokenParams.mk "x@y.com" "abc"))
       (after sound (with_verificationTokens sample [])) =
       (Ok null, after sound (with_verificationTokens sample [])).
Proof.
  split; [reflexivity|].
  apply (useVerificationToken_single_use
           (TokenParams.mk "x@y.com" "abc") sound token_abc
           (after sound (with_verificationTokens sample []))).
  reflexivity.
Defined.

(** ** Joins *)

Section Joins.
Context {A B : Type}.
Implicit Types (l : list A) (r : list B) (on : A -> B -> bool)
         (w : A -> bool).

(** A condition on the left row alone can be tested before the join. *)
Lemma filter_fst_all w (a : A) (m : list (A * js B)) :
  (forall p, In p m -> fst p = a) ->
  filter (fun p => w (fst p)) m = if w a then m else [].
Proof.
  intros H. destruct (w a) eqn:E.
  - induction m as [|p m IH]; simpl; auto.
    rewrite (H p), E by (left; auto). f_equal.
    apply IH. intros; apply H; right; auto.
  - apply filter_none. intros p Hin. now rewrite (H p Hin).
Qed.

Lemma fst_left_rows (a : A) (m : list B) (p : A * js B) :
  In p (left_rows a m) -> fst p = a.
Proof.
  destruct m as [|b m]; simpl.
  - intros [<-|[]]. reflexivity.
  - intros [<-|Hin]; auto.
    apply in_map_iff in Hin. destruct Hin as [b' [<- _]]. reflexivity.
Qed.

Lemma filter_innerJoin w l r on :
  filter (fun p => w (fst p)) (innerJoin l r on)
  = innerJoin (filter w l) r on.
Proof.
  unfold innerJoin. induction l as [|a l IH]; simpl; auto.
  rewrite filter_app, IH. destruct (w a) eqn:E; simpl.
  - f_equal. induction (filter (on a) r) as [|b m IHm]; simpl; auto.
    rewrite E. now f_equal.
  - rewrite filter_none; auto.
    intros p Hin. apply in_map_iff in Hin.
    destruct Hin as [b [<- _]]. exact E.
Qed.

Lemma filter_leftJoin w l r on :
  filter (fun p => w (fst p)) (leftJoin l r on)
  = leftJoin (filter w l) r on.
Proof.
  unfold leftJoin. induction l as [|a l IH]; cbn [flat_map filter]; auto.
  rewrite filter_app, IH.
  rewrite (filter_fst_all w a) by apply fst_left_rows.
  destruct (w a); reflexivity.
Qed.

Lemma in_innerJoin l r on a b :
  In (a, b) (innerJoin l r on) <-> In a l /\ In b r /\ on a b = true.
Proof.
  unfold innerJoin. rewrite in_flat_map. split.
  - intros [a' [Ha Hin]]. apply in_map_iff in Hin.
    destruct Hin as [b' [E Hb]]. injection E as -> ->.
    apply filter_In in Hb. tauto.
  - intros [Ha [Hb Hon]]. exists a. split; auto.
    apply in_map. apply filter_In. auto.
Qed.
End Joins.

(** ** Lookups that find nothing *)

Lemma delete_sessions_none w d :
  (forall s, In s (sessions_of d) -> w s = false) ->
  delete_sessions w d = (Ok [], d).
Proof.
  intros H. unfold delete_sessions, with_sessions.
  rewrite filter_none, filter_negb_none by assumption.
  now rewrite schema_eta.
Qed.

Lemma getSessionAndUser_selects data c :
  next_fault c = None ->
  let found :=
    first
      (map (fun p => mkSessionAndUser (fst p) (snd p))
         (innerJoin
            (filter (fun s => eq (sessions.sessionToken s) data)
                    (sessions_of (database c)))
            (users_of (database c))
            (fun s u => eq (users.id u) (sessions.userId s)))) in
  awaited (getSessionAndUser data) c =
    (Ok match kind c with
        | sync => found ?? null
        | async => found
        end, after c (database c)).
Proof.
  intros H found. unfold getSessionAndUser.
  rewrite awaited_coalesce.
  erewrite get_rows by (auto; reflexivity).
  subst found. rewrite filter_innerJoin. reflexivity.
Qed.

(** [getUserByAccount] awaited.  On an asynchronous client
    [results?.users] is read off the Promise: it is [undefined], and
    the call returns [null] whatever the Promise settles to. *)
Lemma getUserByAccount_awaited account c :
  let q := select_accounts_leftJoin_users
             (fun a u => eq (users.id u) (accounts.userId a))
             (fun a =>
                and_ (eq (accounts.provider a)
                         (ProviderAccount.provider account))
                     (eq (accounts.providerAccountId a)
                         (ProviderAccount.providerAccountId account))) in
  awaited (getUserByAccount account) c =
    (match kind c with
     | sync =>
         match fst (awaited (get q) c) with
         | Ok v => Ok (optional_chain v users ?? null)
         | Throw e => Throw e
         end
     | async => Ok null
     end, snd (awaited (get q) c)).
Proof.
  intros q. unfold getUserByAccount. fold q.
  unfold awaited, bind, ret, get, hand_back.
  destruct (issue q c) as [[rows|e] c'], (kind c); reflexivity.
Qed.

Lemma getUserByAccount_selects account c :
  next_fault c = None ->
  let found :=
    first
      (map (fun p => mkAccountsUsers (fst p) (snd p))
         (leftJoin
            (filter
               (fun a =>
                  and_ (eq (accounts.provider a)
                           (ProviderAccount.provider account))
                       (eq (accounts.providerAccountId a)
                           (ProviderAccount.providerAccountId account)))
               (accounts_of (database c)))
            (users_of (database c))
            (fun a u => eq (users.id u) (accounts.userId a)))) in
  awaited (getUserByAccount account) c =
    (Ok match kind c with
        | sync => optional_chain found users ?? null
        | async => null
        end, after c (database c)).
Proof.
  intros H found. rewrite getUserByAccount_awaited. cbv zeta.
  erewrite get_rows by (auto; reflexivity).
  subst found. rewrite filter_leftJoin.
  destruct (kind c); reflexivity.
Qed.

Lemma account_where_true account a :
  and_ (eq (accounts.provider a) (ProviderAccount.provider account))
       (eq (accounts.providerAccountId a)
           (ProviderAccount.providerAccountId account)) = true
  <-> accounts.provider a = ProviderAccount.provider account
      /\ accounts.providerAccountId a
         = ProviderAccount.providerAccountId account.
Proof. rewrite and_true_iff, !eq_true_iff. tauto. Qed.

Lemma account_where_false account a :
  ~ (accounts.provider a = ProviderAccount.provider account
     /\ accounts.providerAccountId a
        = ProviderAccount.providerAccountId account) ->
  and_ (eq (accounts.provider a) (ProviderAccount.provider account))
       (eq (accounts.providerAccountId a)
           (ProviderAccount.providerAccountId account)) = false.
Proof.
  intros H. apply not_true_is_false. intros E.
  apply H. now apply account_where_true.
Qed.

Lemma getUser_selects id c :
  next_fault c = None ->
  let found :=
    first (filter (fun u => eq (users.id u) id) (users_of (database c))) in
  awaited (getUser id) c =
    (Ok match kind c with
        | sync => found ?? null
        | async => found
        end, after c (database c)).
Proof.
  intros H found. unfold getUser. rewrite awaited_coalesce.
  erewrite get_rows by (auto; reflexivity). reflexivity.
Qed.

Lemma getUserByEmail_selects email c :
  next_fault c = None ->
  let found :=
    first (filter (fun u => eq (users.email u) email)
                  (users_of (database c))) in
  awaited (getUserByEmail email) c =
    (Ok match kind c with
        | sync => found ?? null
        | async => found
        end, after c (database c)).
Proof.
  intros H found. unfold getUserByEmail. rewrite awaited_coalesce.
  erewrite get_rows by (auto; reflexivity). reflexivity.
Qed.

Lemma deleteSession_deletes sessionToken c :
  next_fault c = None ->
  let w s := eq (sessions.sessionToken s) sessionToken in
  awaited (deleteSession sessionToken) c =
    (Ok match kind c with
        | sync => first (filter w (sessions_of (database c))) ?? null
        | async => first (filter w (sessions_of (database c)))
        end,
     after c (with_sessions (database c)
                (filter (fun s => negb (w s)) (sessions_of (database c))))).
Proof.
  intros H w. unfold deleteSession. rewrite awaited_coalesce.
  erewrite get_rows by (auto; reflexivity). reflexivity.
Qed.

Lemma deleteSession_unmatched sessionToken c :
  next_fault c = None ->
  (forall s, In s (sessions_of (database c)) ->
     sessions.sessionToken s <> sessionToken) ->
  awaited (deleteSession sessionToken) c =
    (Ok match kind c with
        | sync => null
        | async => undefined
        end, after c (database c)).
Proof.
  intros F H. unfold deleteSession. rewrite awaited_coalesce.
  rewrite (get_rows _ c [] (database c) F).
  - simpl. destruct (kind c); reflexivity.
  - apply delete_sessions_none.
    intros s Hin. apply eq_false_iff. auto.
Qed.

(** C4, on each kind of client.  On a store that answers, when no row
    matches (no user with the id, no user with the email, no session
    with the token joined to its user, no account with the two keys,
    no session with the token to delete), none of the five lookups
    throws and the database is left as it was.  On a synchronous
    client each returns [null].  On an asynchronous client [?? null]
    meets the Promise: [getUser], [getUserByEmail],
    [getSessionAndUser] and [deleteSession] give [undefined];
    [getUserByAccount] gives [null]. *)
Theorem lookups_when_absent c :
  next_fault c = None ->
  let d := database c in
  (forall id,
     (forall u, In u (users_of d) -> users.id u <> id) ->
     awaited (getUser id) c =
       (Ok match kind c with
           | sync => null
           | async => undefined
           end, after c d))
  /\ (forall email,
      (forall u, In u (users_of d) -> users.email u <> email) ->
      awaited (getUserByEmail email) c =
        (Ok match kind c with
            | sync => null
            | async => undefined
            end, after c d))
  /\ (forall sessionToken,
      (forall s u, In s (sessions_of d) -> In u (users_of d) ->
         sessions.sessionToken s = sessionToken ->
         users.id u <> sessions.userId s) ->
      awaited (getSessionAndUser sessionToken) c =
        (Ok match kind c with
            | sync => null
            | async => undefined
            end, after c d))
  /\ (forall account,
      (forall a, In a (accounts_of d) ->
         ~ (accounts.provider a = ProviderAccount.provider account
            /\ accounts.providerAccountId a
               = ProviderAccount.providerAccountId account)) ->
      awaited (getUserByAccount account) c = (Ok null, after c d))
  /\ (forall sessionToken,
      (forall s, In s (sessions_of d) ->
         sessions.sessionToken s <> sessionToken) ->
      awaited (deleteSession sessionToken) c =
        (Ok match kind c with
            | sync => null
            | async => undefined
            end, after c d)).
Proof.
  intros F d. split; [|split; [|split; [|split]]].
  - intros id H. rewrite getUser_selects by assumption. cbv zeta.
    fold d. rewrite filter_none.
    + destruct (kind c); reflexivity.
    + intros u Hin. apply eq_false_iff. auto.
  - intros email H. rewrite getUserByEmail_selects by assumption.
    cbv zeta. fold d. rewrite filter_none.
    + destruct (kind c); reflexivity.
    + intros u Hin. apply eq_false_iff. auto.
  - intros tok H. rewrite getSessionAndUser_selects by assumption.
    cbv zeta. fold d.
    destruct (innerJoin _ _ _) as [|[s u] m] eqn:E.
    { destruct (kind c); reflexivity. }
    exfalso.
    assert (Hin : In (s, u)
                    (innerJoin
                       (filter (fun s => eq (sessions.sessionToken s) tok)
                               (sessions_of d))
                       (users_of d)
                       (fun s u => eq (users.id u) (sessions.userId s))))
      by (rewrite E; left; reflexivity).
    apply in_innerJoin in Hin. destruct Hin as [Hs [Hu Hon]].
    apply filter_In in Hs. destruct Hs as [Hs Ht].
    apply eq_true_iff in Ht, Hon. eapply H; eauto.
  - intros account H. rewrite getUserByAccount_selects by assumption.
    cbv zeta. fold d. rewrite filter_none.
    + destruct (kind c); reflexivity.
    + intros a Hin. apply account_where_false. auto.
  - intros tok H. now apply deleteSession_unmatched.
Qed.

Lemma lookups_when_absent_witness :
  (awaited (getUser "u2") sound = (Ok null, after sound sample)
   /\ awaited (getUserByEmail "A@B.COM") sound
      = (Ok null, after sound sample)
   /\ awaited (getSessionAndUser "s2") sound = (Ok null, after sound sample)
   /\ awaited (getUserByAccount (ProviderAccount.mk "github" "124")) sound
      = (Ok null, after sound sample)
   /\ awaited (deleteSession "s2") sound = (Ok null, after sound sample))
  /\ awaited (getUser "u2") sound_async
     = (Ok undefined, after sound_async sample)
  /\ awaited (getUserByEmail "A@B.COM") sound_async
     = (Ok undefined, after sound_async sample)
  /\ awaited (getSessionAndUser "s2") sound_async
     = (Ok undefined, after sound_async sample)
  /\ awaited (getUserByAccount (ProviderAccount.mk "github" "124"))
       sound_async
     = (Ok null, after sound_async sample)
  /\ awaited (deleteSession "s2") sound_async
     = (Ok undefined, after sound_async sample).
Proof.
  pose proof (lookups_when_absent sound eq_refl)
    as [H1 [H2 [H3 [H4 H5]]]].
  pose proof (lookups_when_absent sound_async eq_refl)
    as [A1 [A2 [A3 [A4 A5]]]].
  split; [split; [|split; [|split; [|split]]]
         |split; [|split; [|split; [|split]]]].
  - apply H1. intros u [<-|[]]. discriminate.
  - apply H2. intros u [<-|[]]. discriminate.
  - apply H3. intros s u [<-|[]] _. discriminate.
  - apply H4. intros a [<-|[]] [_ H]. discriminate.
  - apply H5. intros s [<-|[]]. discriminate.
  - apply A1. intros u [<-|[]]. discriminate.
  - apply A2. intros u [<-|[]]. discriminate.
  - apply A3. intros s u [<-|[]] _. discriminate.
  - apply A4. intros a [<-|[]] [_ H]. discriminate.
  - apply A5. intros s [<-|[]]. discriminate.
Defined.

(** ** updateUser, updateSession, deleteUser *)

Lemma delete_users_none w d :
  (forall u, In u (users_of d) -> w u = false) ->
  delete_users w d = (Ok [], d).
Proof.
  intros H. unfold delete_users.
  rewrite filter_none, filter_negb_none by assumption.
  rewrite !filter_all by reflexivity.
  now rewrite schema_eta.
Qed.

Lemma updateUser_no_id data c :
  not_string (PartialUser.id data) = true ->
  updateUser data c = (Throw (Error "No user id."), c).
Proof. intros H. unfold updateUser. rewrite H. reflexivity. Qed.

Lemma updateUser_updates data c i :
  PartialUser.id data = Some i -> i <> "" -> next_fault c = None ->
  let w u := eq (users.id u) i in
  awaited (updateUser data) c =
    (Ok (first (map (user_set data) (filter w (users_of (database c))))),
     after c (with_users (database c)
                (update_rows (user_set data) w (users_of (database c))))).
Proof.
  intros Hid Hi F w. unfold updateUser. rewrite Hid. simpl.
  apply String.eqb_neq in Hi. rewrite Hi.
  apply get_rows; auto. unfold update_users.
  replace (forallb _ _) with true; [reflexivity|].
  symmetry. apply forallb_forall. intros u Hu.
  apply filter_In in Hu. destruct Hu as [_ Hu].
  unfold same_user, user_set. simpl. rewrite Hid. simpl.
  apply eq_true_iff. apply eq_true_iff in Hu. congruence.
Qed.

(** C5, as the code has it.  An update whose [id] is missing or is the
    empty string is refused with the error "No user id.", thrown by the
    call itself on either kind of client, before any statement is
    issued: the client, database and pending faults alike, is
    unchanged.  An update whose [id] is a non-empty string that a
    stored user carries, on a store that answers, replaces that user by
    its image under the assignment and returns the image; with unique
    user ids the user is the one that carries the id. *)
Theorem updateUser_needs_nonempty_id data c :
  (PartialUser.id data = None \/ PartialUser.id data = Some "" ->
   updateUser data c = (Throw (Error "No user id."), c))
  /\ (forall i u,
      PartialUser.id data = Some i -> i <> "" -> next_fault c = None ->
      In u (users_of (database c)) -> users.id u = i ->
      exists u0,
        In u0 (users_of (database c)) /\ users.id u0 = i
        /\ (unique same_user (users_of (database c)) = true -> u0 = u)
        /\ awaited (updateUser data) c =
             (Ok (val (user_set data u0)),
              after c
                (with_users (database c)
                   (update_rows (user_set data)
                      (fun r => eq (users.id r) i)
                      (users_of (database c)))))).
Proof.
  split.
  - intros H. apply updateUser_no_id. destruct H as [-> | ->]; reflexivity.
  - intros i u Hid Hi F Hin Hu.
    rewrite (updateUser_updates data c i Hid Hi F).
    destruct (first_filter_some (fun r => eq (users.id r) i)
                (users_of (database c)) u Hin) as [u0 E].
    { now apply eq_true_iff. }
    pose proof (first_filter_In _ _ _ E) as [Hin0 Hw0].
    apply eq_true_iff in Hw0.
    exists u0. repeat split; auto.
    + intros U.
      apply (unique_In_eq same_user (users_of (database c))); auto;
        unfold same_user; apply eq_true_iff; congruence.
    + destruct (filter _ _) as [|x m]; simpl in *; congruence.
Qed.

Lemma updateUser_needs_nonempty_id_witness :
  updateUser (PartialUser.mk None (val "x") None undefined undefined) sound
  = (Throw (Error "No user id."), sound)
  /\ exists u0,
       In u0 (users_of sample) /\ users.id u0 = "u1"
       /\ (unique same_user (users_of sample) = true -> u0 = alice)
       /\ awaited (updateUser rename_alice) sound =
            (Ok (val (user_set rename_alice u0)),
             after sound
               (with_users sample
                  (update_rows (user_set rename_alice)
                     (fun r => eq (users.id r) "u1") (users_of sample)))).
Proof.
  split.
  - apply (proj1 (updateUser_needs_nonempty_id
                    (PartialUser.mk None (val "x") None undefined undefined)
                    sound)).
    left. reflexivity.
  - apply (proj2 (updateUser_needs_nonempty_id rename_alice sound)
             "u1" alice); try reflexivity.
    + discriminate.
    + left. reflexivity.
Defined.

(** C5, as the claim states it, fails: the update carries an id, the
    empty string, and a stored user carries that id, yet the call
    throws and the user is not updated. *)
Lemma updateUser_refuses_empty_id :
  PartialUser.id rename_blank = Some (users.id blank)
  /\ In blank (users_of (database with_blank))
  /\ updateUser rename_blank with_blank
     = (Throw (Error "No user id."), with_blank).
Proof. repeat split. simpl. auto. Qed.

(** C10, as the code has it.  On a store that answers, [deleteUser]
    with an id no user carries, [updateSession] with a token no session
    carries, and [updateUser] with a non-empty id no user carries, all
    return [undefined], on either kind of client; the database is left
    as it was.  [deleteSession] with a token no session carries
    returns [null] on a synchronous client, where its [?? null]
    applies, and [undefined] like the others on an asynchronous one. *)
Theorem unmatched_writes_return_undefined c :
  next_fault c = None ->
  let d := database c in
  (forall id,
     (forall u, In u (users_of d) -> users.id u <> id) ->
     awaited (deleteUser id) c = (Ok undefined, after c d))
  /\ (forall data i,
      PartialUser.id data = Some i -> i <> "" ->
      (forall u, In u (users_of d) -> users.id u <> i) ->
      awaited (updateUser data) c = (Ok undefined, after c d))
  /\ (forall data,
      (forall s, In s (sessions_of d) ->
         sessions.sessionToken s <> PartialSession.sessionToken data) ->
      awaited (updateSession data) c = (Ok undefined, after c d))
  /\ (forall sessionToken,
      (forall s, In s (sessions_of d) ->
         sessions.sessionToken s <> sessionToken) ->
      awaited (deleteSession sessionToken) c =
        (Ok match kind c with
            | sync => null
            | async => undefined
            end, after c d)).
Proof.
  intros F d. split; [|split; [|split]].
  - intros id H. unfold deleteUser.
    apply (get_rows _ c [] d F). apply delete_users_none.
    intros u Hin. apply eq_false_iff. auto.
  - intros data i Hid Hi H.
    rewrite (updateUser_updates data c i Hid Hi F). fold d.
    assert (Hw : forall u, In u (users_of d) -> eq (users.id u) i = false)
      by (intros u Hin; apply eq_false_iff; auto).
    rewrite filter_none, update_rows_none by assumption.
    unfold with_users. now rewrite schema_eta.
  - intros data H. unfold updateSession.
    apply (get_rows _ c [] d F). unfold update_sessions.
    assert (Hw : forall s, In s (sessions_of d) ->
                   eq (sessions.sessionToken s)
                      (PartialSession.sessionToken data) = false)
      by (intros s Hin; apply eq_false_iff; auto).
    rewrite filter_none, update_rows_none by assumption.
    simpl. unfold with_sessions. now rewrite schema_eta.
  - intros tok H. now apply deleteSession_unmatched.
Qed.

Lemma unmatched_writes_return_undefined_witness :
  awaited (deleteUser "u2") sound = (Ok undefined, after sound sample)
  /\ awaited (updateUser rename_nobody) sound
     = (Ok undefined, after sound sample)
  /\ awaited (updateSession extend_s2) sound
     = (Ok undefined, after sound sample)
  /\ awaited (deleteSession "s2") sound = (Ok null, after sound sample).
Proof.
  pose proof (unmatched_writes_return_undefined sound eq_refl)
    as [H1 [H2 [H3 H4]]].
  split; [|split; [|split]].
  - apply H1. intros u [<-|[]]. discriminate.
  - apply (H2 rename_nobody "u2"); [reflexivity|discriminate|].
    intros u [<-|[]]. discriminate.
  - apply H3. intros s [<-|[]]. discriminate.
  - apply H4. intros s [<-|[]]. discriminate.
Defined.

(** C10, as the claim states it, fails for [updateUser]: its id, the
    empty string, matches no user, yet the call does not return
    [undefined]; it throws. *)
Lemma updateUser_empty_id_unmatched_throws :
  PartialUser.id rename_blank = Some ""
  /\ (forall u, In u (users_of (database sound)) -> users.id u <> "")
  /\ updateUser rename_blank sound = (Throw (Error "No user id."), sound)
  /\ fst (awaited (updateUser rename_blank) sound) <> Ok undefined.
Proof.
  split; [reflexivity|]. split; [|split].
  - intros u [<-|[]]. discriminate.
  - reflexivity.
  - discriminate.
Qed.

(** ** deleteUser *)

Lemma references_In {R} (userId : R -> string) us l r :
  references userId us l = true -> In r l -> has_user us (userId r) = true.
Proof.
  unfold references. intros H Hin.
  rewrite forallb_forall in H. auto.
Qed.

Lemma foreign_keys_ok_iff d :
  foreign_keys_ok d = true <->
  references accounts.userId (users_of d) (accounts_of d) = true
  /\ references sessions.userId (users_of d) (sessions_of d) = true.
Proof. unfold foreign_keys_ok. apply andb_true_iff. Qed.

Section Cascade.
Variable id : string.
Variable us : list users.row.

Let gone := filter (fun u => eq (users.id u) id) us.

(** A child row goes exactly when its user is the deleted one,
    provided its user exists. *)
Lemma cascade_drops {R} (userId : R -> string) (l : list R) r :
  references userId us l = true ->
  In r (filter (fun r => negb (has_user gone (userId r))) l) ->
  userId r <> id.
Proof.
  intros FK Hin E. apply filter_In in Hin. destruct Hin as [Hin Hk].
  apply negb_true_iff in Hk.
  pose proof (references_In userId us l r FK Hin) as Hu.
  apply has_user_true_iff in Hu. destruct Hu as [u [Hu Hid]].
  assert (has_user gone (userId r) = true); [|congruence].
  apply has_user_true_iff. exists u. split; auto.
  apply filter_In. split; auto. apply eq_true_iff. congruence.
Qed.

Lemma cascade_keeps {R} (userId : R -> string) (l : list R) r :
  In r l -> userId r <> id ->
  In r (filter (fun r => negb (has_user gone (userId r))) l).
Proof.
  intros Hin Hne. apply filter_In. split; auto.
  apply negb_true_iff. apply has_user_false_iff.
  intros u Hu E. apply filter_In in Hu. destruct Hu as [_ Hu].
  apply eq_true_iff in Hu. congruence.
Qed.
End Cascade.

(** C6.  On a database whose foreign keys hold, [deleteUser id]
    completes whenever the store answers, and once it has completed no
    user has that id, and no session and no account has it as
    [userId]; the sessions and accounts of other users are all still
    there. *)
Theorem deleteUser_cascades id c :
  foreign_keys_ok (database c) = true ->
  (next_fault c = None ->
   exists r d', awaited (deleteUser id) c = (Ok r, after c d'))
  /\ (forall r c',
      awaited (deleteUser id) c = (Ok r, c') ->
      (forall u, In u (users_of (database c')) -> users.id u <> id)
      /\ (forall s, In s (sessions_of (database c')) ->
            sessions.userId s <> id)
      /\ (forall a, In a (accounts_of (database c')) ->
            accounts.userId a <> id)
      /\ (forall s, In s (sessions_of (database c)) ->
            sessions.userId s <> id -> In s (sessions_of (database c')))
      /\ (forall a, In a (accounts_of (database c)) ->
            accounts.userId a <> id -> In a (accounts_of (database c')))).
Proof.
  intros FK. apply foreign_keys_ok_iff in FK. destruct FK as [FKa FKs].
  split.
  - intros F. unfold deleteUser. eexists. eexists.
    apply get_rows; auto. reflexivity.
  - intros r c' H. unfold deleteUser in H. apply get_returns in H.
    destruct H as [_ [rows [d [Hq [_ ->]]]]].
    unfold delete_users in Hq. injection Hq as _ <-. simpl.
    split; [|split; [|split; [|split]]].
    + intros u Hin. apply filter_negb_gone in Hin.
      now apply eq_false_iff.
    + intros s. now apply cascade_drops.
    + intros a. now apply cascade_drops.
    + intros s. apply cascade_keeps.
    + intros a. apply cascade_keeps.
Qed.

Lemma deleteUser_cascades_witness :
  (exists r d', awaited (deleteUser "u1") sound = (Ok r, after sound d'))
  /\ (forall s,
        In s (sessions_of
                (database (after sound (mkSchema [] [] [] [token_abc])))) ->
        sessions.userId s <> "u1").
Proof.
  split.
  - apply (proj1 (deleteUser_cascades "u1" sound eq_refl)). reflexivity.
  - apply (proj2 (deleteUser_cascades "u1" sound eq_refl) (val alice)).
    reflexivity.
Defined.

(** ** getSessionAndUser *)

(** C7, on each kind of client.  On a store that answers,
    [getSessionAndUser] returns a pair exactly when some session has
    the token and some user has that session's [userId]; the pair it
    returns is such a session with such a user.  In every other case
    it returns [null] on a synchronous client; on an asynchronous
    client [?? null] meets the Promise and the caller gets
    [undefined]. *)
Theorem getSessionAndUser_inner_join sessionToken c :
  next_fault c = None ->
  let d := database c in
  let joined s u :=
    In s (sessions_of d) /\ sessions.sessionToken s = sessionToken
    /\ In u (users_of d) /\ users.id u = sessions.userId s in
  (forall r c',
     awaited (getSessionAndUser sessionToken) c = (Ok (val r), c') ->
     joined (session r) (user r))
  /\ ((exists s u, joined s u) ->
      exists r,
        awaited (getSessionAndUser sessionToken) c
        = (Ok (val r), after c d))
  /\ (~ (exists s u, joined s u) ->
      awaited (getSessionAndUser sessionToken) c =
        (Ok match kind c with
            | sync => null
            | async => undefined
            end, after c d)).
Proof.
  intros F d joined.
  rewrite (getSessionAndUser_selects sessionToken c F). cbv zeta. fold d.
  set (J := innerJoin _ _ _).
  assert (HJ : forall s u, In (s, u) J <-> joined s u).
  { intros s u. unfold J, joined. rewrite in_innerJoin, filter_In.
    rewrite !eq_true_iff. tauto. }
  split; [|split].
  - intros r c' H. destruct J as [|[s u] m].
    { destruct (kind c); discriminate. }
    destruct (kind c); simpl in H; injection H as <- _; simpl;
      apply HJ; left; reflexivity.
  - intros [s [u H]]. apply HJ in H.
    destruct J as [|p m]; [contradiction|].
    exists (mkSessionAndUser (fst p) (snd p)).
    destruct (kind c); reflexivity.
  - intros H. destruct J as [|[s u] m].
    { destruct (kind c); reflexivity. }
    exfalso. apply H. exists s, u. apply HJ. left. reflexivity.
Qed.

Lemma getSessionAndUser_inner_join_witness :
  (exists r,
     awaited (getSessionAndUser "s1") sound_async
     = (Ok (val r), after sound_async sample))
  /\ awaited (getSessionAndUser "s1") orphaned_session
     = (Ok null, after orphaned_session (database orphaned_session))
  /\ awaited (getSessionAndUser "s2") sound_async
     = (Ok undefined, after sound_async sample).
Proof.
  split; [|split].
  - apply (proj1 (proj2 (getSessionAndUser_inner_join
                           "s1" sound_async eq_refl))).
    exists session_s1, alice. simpl. auto.
  - apply (proj2 (proj2 (getSessionAndUser_inner_join
                           "s1" orphaned_session eq_refl))).
    intros [s [u [_ [_ [[] _]]]]].
  - apply (proj2 (proj2 (getSessionAndUser_inner_join
                           "s2" sound_async eq_refl))).
    intros [s [u [[<-|[]] [H _]]]]. discriminate.
Defined.

(** ** linkAccount *)

Lemma account_of_row_normalized stored :
  account_of_row stored = normalized stored.
Proof.
  destruct stored as [u t p a r1 r2 r3 r4 r5 r6 r7].
  destruct r1, r2, r3, r4, r5, r6, r7; reflexivity.
Qed.

(** [linkAccount] awaited, by the kind of the client. *)
Lemma linkAccount_awaited rawAccount c :
  let q := insert_accounts (account_values rawAccount) in
  awaited (linkAccount rawAccount) c =
    (match kind c with
     | sync =>
         match fst (issue q c) with
         | Ok (row :: _) => Ok (val (account_of_row row))
         | Ok [] => Throw (TypeError "Cannot read properties of undefined")
         | Throw e => Throw e
         end
     | async => Ok (val (account_from promise_read))
     end, snd (issue q c)).
Proof.
  intros q. unfold linkAccount. fold q.
  unfold awaited, bind, ret, throw, get, hand_back.
  destruct (issue q c) as [[[|row rows]|e] c'], (kind c); reflexivity.
Qed.

(** What [insert_accounts] does on a store that answers. *)
Lemma issue_insert_accounts row c :
  next_fault c = None ->
  issue (insert_accounts row) c =
    if existsb (same_account row) (accounts_of (database c))
    then (Throw PRIMARYKEY, after c (database c))
    else if has_user (users_of (database c)) (accounts.userId row)
    then (Ok [row],
          after c (with_accounts (database c)
                     (accounts_of (database c) ++ [row])))
    else (Throw FOREIGNKEY, after c (database c)).
Proof.
  intros F. unfold issue, insert_accounts. rewrite F.
  destruct (existsb _ _); [reflexivity|].
  destruct (has_user _ _); reflexivity.
Qed.

(** C8, on each kind of client.  The mapping [account_of_row] gives
    the stored row with the required fields as stored and every
    optional field that is null given as absent.  On a synchronous
    client [linkAccount] stores the row bound from its input and
    returns what the mapping makes of it: it returns whenever the store
    answers, the two keys are new and the user exists, and whenever it
    returns, the row has been appended to the accounts.  On an
    asynchronous client the mapping is applied to the Promise instead
    of the stored row: whatever the input, the object returned has no
    property of the account at all, each one reads as [undefined]. *)
Theorem linkAccount_result rawAccount c :
  let d := database c in
  let row := account_values rawAccount in
  (forall stored, account_of_row stored = normalized stored)
  /\ (kind c = sync -> next_fault c = None ->
      existsb (same_account row) (accounts_of d) = false ->
      has_user (users_of d) (AdapterAccount.userId rawAccount) = true ->
      awaited (linkAccount rawAccount) c =
        (Ok (val (normalized row)),
         after c (with_accounts d (accounts_of d ++ [row]))))
  /\ (forall r c',
      kind c = sync ->
      awaited (linkAccount rawAccount) c = (Ok r, c') ->
      r = val (normalized row)
      /\ accounts_of (database c') = accounts_of d ++ [row])
  /\ (kind c = async ->
      fst (awaited (linkAccount rawAccount) c) =
        Ok (val (LinkedAccount.mk
                   undefined undefined undefined undefined undefined
                   undefined undefined undefined undefined undefined
                   undefined))).
Proof.
  intros d row. split; [apply account_of_row_normalized|].
  split; [|split].
  - intros K F Hpk Hfk. rewrite linkAccount_awaited. cbv zeta.
    rewrite K, issue_insert_accounts by assumption. fold row d.
    rewrite Hpk.
    replace (accounts.userId row) with (AdapterAccount.userId rawAccount)
      by reflexivity.
    rewrite Hfk. simpl. now rewrite account_of_row_normalized.
  - intros r c' K H. rewrite linkAccount_awaited in H. cbv zeta in H.
    rewrite K in H. fold row in H. unfold issue in H.
    destruct (next_fault c); [discriminate|].
    unfold insert_accounts in H. fold d in H.
    destruct (existsb _ _); [discriminate|].
    destruct (negb _); [discriminate|].
    simpl in H. injection H as <- <-.
    split; [now rewrite account_of_row_normalized | reflexivity].
  - intros K. rewrite linkAccount_awaited. cbv zeta. rewrite K.
    reflexivity.
Qed.

Lemma linkAccount_result_witness :
  awaited (linkAccount gitlab_9) sound =
    (Ok (val (LinkedAccount.mk
                (val "u1") (val "oauth") (val "gitlab") (val "9")
                undefined (val "glpat_1")
                undefined undefined undefined undefined undefined)),
     after sound
       (with_accounts sample [github_123; account_values gitlab_9]))
  /\ accounts_of
       (database
          (after sound
             (with_accounts sample [github_123; account_values gitlab_9])))
     = accounts_of sample ++ [account_values gitlab_9]
  /\ fst (awaited (linkAccount gitlab_9) sound_async) =
       Ok (val (LinkedAccount.mk
                  undefined undefined undefined undefined undefined
                  undefined undefined undefined undefined undefined
                  undefined)).
Proof.
  split; [|split].
  - apply (proj1 (proj2 (linkAccount_result gitlab_9 sound)));
      reflexivity.
  - apply (proj1 (proj2 (proj2 (linkAccount_result gitlab_9 sound)))
             (val (normalized (account_values gitlab_9)))
             (after sound
                (with_accounts sample
                   [github_123; account_values gitlab_9])));
      reflexivity.
  - apply (proj2 (proj2 (proj2 (linkAccount_result gitlab_9 sound_async)))).
    reflexivity.
Defined.

(** ** getUserByAccount *)

(** C9, on each kind of client.  On a store that answers: when no
    account has both keys, whatever other accounts there are,
    [getUserByAccount] returns [null]; and, the two keys being unique
    among the accounts, when an account has both keys and no user has
    its [userId], it returns [null].  On a synchronous client, when an
    account has both keys and a user has that account's [userId], it
    returns a user with that id (the very user, ids being unique).  On
    an asynchronous client [results?.users] is read off the Promise,
    and it returns [null] whatever is stored. *)
Theorem getUserByAccount_left_join account c :
  next_fault c = None ->
  let d := database c in
  let keyed a :=
    accounts.provider a = ProviderAccount.provider account
    /\ accounts.providerAccountId a
       = ProviderAccount.providerAccountId account in
  (forall a u,
     kind c = sync ->
     unique same_account (accounts_of d) = true ->
     In a (accounts_of d) -> keyed a ->
     In u (users_of d) -> users.id u = accounts.userId a ->
     exists u0,
       In u0 (users_of d) /\ users.id u0 = accounts.userId a
       /\ (unique same_user (users_of d) = true -> u0 = u)
       /\ awaited (getUserByAccount account) c = (Ok (val u0), after c d))
  /\ ((forall a, In a (accounts_of d) -> ~ keyed a) ->
      awaited (getUserByAccount account) c = (Ok null, after c d))
  /\ (forall a,
      unique same_account (accounts_of d) = true ->
      In a (accounts_of d) -> keyed a ->
      (forall u, In u (users_of d) -> users.id u <> accounts.userId a) ->
      awaited (getUserByAccount account) c = (Ok null, after c d))
  /\ (kind c = async ->
      awaited (getUserByAccount account) c = (Ok null, after c d)).
Proof.
  intros F d keyed.
  rewrite (getUserByAccount_selects account c F). cbv zeta. fold d.
  set (w := fun a : accounts.row => and_ _ _).
  assert (Hw : forall a, w a = true <-> keyed a)
    by (intros a; apply account_where_true).
  assert (Hone : forall a,
             unique same_account (accounts_of d) = true ->
             In a (accounts_of d) -> keyed a ->
             filter w (accounts_of d) = [a]).
  { intros a U Hin Hk. apply (filter_unique same_account); auto.
    - intros x y Hx Hy. apply Hw in Hx, Hy.
      destruct Hx as [X1 X2], Hy as [Y1 Y2].
      unfold same_account. apply and_true_iff.
      split; apply eq_true_iff; congruence.
    - now apply Hw. }
  split; [|split; [|split]].
  - intros a u K U Hin Hk Hu Hid. rewrite K, (Hone a U Hin Hk).
    unfold leftJoin. cbn [flat_map]. rewrite app_nil_r.
    set (on := fun u : users.row => eq (users.id u) (accounts.userId a)).
    destruct (first_filter_some on (users_of d) u Hu) as [u0 E].
    { now apply eq_true_iff. }
    pose proof (first_filter_In _ _ _ E) as [Hin0 Hon0].
    apply eq_true_iff in Hon0.
    exists u0. repeat split; auto.
    + intros Uu.
      apply (unique_In_eq same_user (users_of d)); auto;
        unfold same_user; apply eq_true_iff; congruence.
    + destruct (filter on (users_of d)) as [|x m]; [discriminate|].
      simpl in E. injection E as ->. reflexivity.
  - intros H. destruct (kind c); [|reflexivity].
    rewrite filter_none; [reflexivity|].
    intros a Hin. apply not_true_is_false. intros E.
    apply (H a Hin). now apply Hw.
  - intros a U Hin Hk Hno. destruct (kind c); [|reflexivity].
    rewrite (Hone a U Hin Hk).
    unfold leftJoin. cbn [flat_map]. rewrite app_nil_r.
    rewrite filter_none; [reflexivity|].
    intros u Hu. apply eq_false_iff. auto.
  - intros K. rewrite K. reflexivity.
Qed.

Lemma getUserByAccount_left_join_witness :
  (exists u0,
     In u0 (users_of sample) /\ users.id u0 = accounts.userId github_123
     /\ (unique same_user (users_of sample) = true -> u0 = alice)
     /\ awaited (getUserByAccount (ProviderAccount.mk "github" "123")) sound
        = (Ok (val u0), after sound sample))
  /\ awaited (getUserByAccount (ProviderAccount.mk "github" "124")) sound
     = (Ok null, after sound sample)
  /\ awaited (getUserByAccount (ProviderAccount.mk "github" "123")) orphaned
     = (Ok null, after orphaned (database orphaned))
  /\ awaited (getUserByAccount (ProviderAccount.mk "github" "123"))
       sound_async
     = (Ok null, after sound_async sample).
Proof.
  split; [|split; [|split]].
  - apply (proj1 (getUserByAccount_left_join
                    (ProviderAccount.mk "github" "123") sound eq_refl)
             github_123 alice); simpl; auto.
  - apply (proj1 (proj2 (getUserByAccount_left_join
                           (ProviderAccount.mk "github" "124") sound
                           eq_refl))).
    intros a [<-|[]] [_ H]. discriminate.
  - apply (proj1 (proj2 (proj2 (getUserByAccount_left_join
                                  (ProviderAccount.mk "github" "123")
                                  orphaned eq_refl)))
             github_123); simpl; auto.
  - apply (proj2 (proj2 (proj2 (getUserByAccount_left_join
                                  (ProviderAccount.mk "github" "123")
                                  sound_async eq_refl)))).
    reflexivity.
Defined.

(** ** The constraints are kept *)

Section Keys.
Context {R : Type}.
Variable same : R -> R -> bool.
Implicit Types (p : R -> bool) (l : list R).

Lemma existsb_filter_false p q l :
  existsb q l = false -> existsb q (filter p l) = false.
Proof.
  induction l as [|a l IH]; simpl; auto.
  intros H. apply orb_false_iff in H. destruct H as [H1 H2].
  destruct (p a); simpl; auto. now rewrite H1, IH.
Qed.

Lemma unique_filter p l :
  unique same l = true -> unique same (filter p l) = true.
Proof.
  induction l as [|a l IH]; simpl; auto.
  intros H. apply andb_true_iff in H. destruct H as [H1 H2].
  destruct (p a); simpl; auto.
  rewrite IH by assumption. apply negb_true_iff in H1.
  now rewrite existsb_filter_false.
Qed.

Lemma unique_snoc l v :
  (forall x y, same x y = same y x) ->
  unique same l = true -> existsb (same v) l = false ->
  unique same (l ++ [v]) = true.
Proof.
  intros Hsym. induction l as [|a l IH]; simpl; auto.
  intros H Hv. apply andb_true_iff in H. destruct H as [H1 H2].
  apply orb_false_iff in Hv. destruct Hv as [Hv1 Hv2].
  rewrite IH by assumption. rewrite existsb_app. simpl.
  apply negb_true_iff in H1. rewrite H1, (Hsym a v), Hv1. reflexivity.
Qed.

Lemma existsb_map_In (g : R -> R) a l :
  (forall b, In b l -> same (g a) (g b) = same a b) ->
  existsb (same (g a)) (map g l) = existsb (same a) l.
Proof.
  induction l as [|b l IH]; simpl; auto.
  intros H. rewrite H, IH; auto.
Qed.

(** Replacing rows by rows with the same keys keeps the keys unique. *)
Lemma unique_map_keys (g : R -> R) l :
  (forall a b, In a l -> In b l -> same (g a) (g b) = same a b) ->
  unique same (map g l) = unique same l.
Proof.
  induction l as [|a l IH]; simpl; auto.
  intros H. rewrite existsb_map_In, IH; auto.
Qed.
End Keys.

Lemma same_user_sym x y : same_user x y = same_user y x.
Proof. unfold same_user, eq. apply String.eqb_sym. Qed.

Lemma same_session_sym x y : same_session x y = same_session y x.
Proof. unfold same_session, eq. apply String.eqb_sym. Qed.

Lemma same_account_sym x y : same_account x y = same_account y x.
Proof.
  unfold same_account, and_, eq.
  now rewrite (String.eqb_sym (accounts.provider x)),
    (String.eqb_sym (accounts.providerAccountId x)).
Qed.

Lemma same_token_sym x y : same_token x y = same_token y x.
Proof.
  unfold same_token, and_, eq.
  now rewrite (String.eqb_sym (verificationTokens.identifier x)),
    (String.eqb_sym (verificationTokens.token x)).
Qed.

Lemma consistent_iff d :
  consistent d <->
  (unique same_user (users_of d) = true
   /\ unique same_account (accounts_of d) = true
   /\ unique same_session (sessions_of d) = true
   /\ unique same_token (verificationTokens_of d) = true)
  /\ references accounts.userId (users_of d) (accounts_of d) = true
  /\ references sessions.userId (users_of d) (sessions_of d) = true.
Proof.
  unfold consistent, primary_keys_ok, foreign_keys_ok.
  rewrite !andb_true_iff. tauto.
Qed.

Section References.
Context {R : Type}.
Variable userId : R -> string.
Implicit Types (us : list users.row) (l : list R).

Lemma references_iff us l :
  references userId us l = true <->
  forall r, In r l -> has_user us (userId r) = true.
Proof. unfold references. apply forallb_forall. Qed.

(** More users, or fewer children, keep the references. *)
Lemma references_weaken us us' l l' :
  (forall uid, has_user us uid = true -> has_user us' uid = true) ->
  (forall r, In r l' -> In r l) ->
  references userId us l = true -> references userId us' l' = true.
Proof.
  intros Hu Hl H. apply references_iff. intros r Hin.
  apply Hu. rewrite references_iff in H. auto.
Qed.

Lemma references_snoc us l v :
  references userId us l = true -> has_user us (userId v) = true ->
  references userId us (l ++ [v]) = true.
Proof.
  intros H Hv. apply references_iff. intros r Hin.
  apply in_app_or in Hin. destruct Hin as [Hin|[<-|[]]]; auto.
  rewrite references_iff in H. auto.
Qed.
End References.

Lemma has_user_snoc us v uid :
  has_user us uid = true -> has_user (us ++ [v]) uid = true.
Proof.
  unfold has_user. rewrite existsb_app. intros ->. reflexivity.
Qed.

(** Rows replaced by rows with the same id leave [has_user] as it was. *)
Lemma has_user_map_keys (g : users.row -> users.row) us uid :
  (forall u, In u us -> users.id (g u) = users.id u) ->
  has_user (map g us) uid = has_user us uid.
Proof.
  unfold has_user. induction us as [|a us IH]; simpl; auto.
  intros H. rewrite H, IH; auto.
Qed.

Lemma update_rows_In {R} (f : R -> R) p l r :
  In r (update_rows f p l) ->
  In r l \/ exists r0, In r0 (filter p l) /\ r = f r0.
Proof.
  unfold update_rows. intros H. apply in_map_iff in H.
  destruct H as [r0 [E Hin]]. destruct (p r0) eqn:P.
  - right. exists r0. split; auto. apply filter_In. auto.
  - left. congruence.
Qed.

(** *** Statements *)

Lemma insert_users_keeps v : keeps (insert_users v).
Proof.
  intros d H. unfold insert_users.
  destruct (existsb _ _) eqn:E; simpl; auto.
  apply consistent_iff in H. destruct H as [[U [A [S T]]] [FA FS]].
  apply consistent_iff. simpl. repeat split; auto.
  - apply unique_snoc; auto using same_user_sym.
  - eapply references_weaken; [| |exact FA]; auto using has_user_snoc.
  - eapply references_weaken; [| |exact FS]; auto using has_user_snoc.
Qed.

Lemma insert_accounts_keeps v : keeps (insert_accounts v).
Proof.
  intros d H. unfold insert_accounts.
  destruct (existsb _ _) eqn:E; simpl; auto.
  destruct (has_user _ _) eqn:E2; simpl; auto.
  apply consistent_iff in H. destruct H as [[U [A [S T]]] [FA FS]].
  apply consistent_iff. simpl. repeat split; auto.
  - apply unique_snoc; auto using same_account_sym.
  - now apply references_snoc.
Qed.

Lemma insert_sessions_keeps v : keeps (insert_sessions v).
Proof.
  intros d H. unfold insert_sessions.
  destruct (existsb _ _) eqn:E; simpl; auto.
  destruct (has_user _ _) eqn:E2; simpl; auto.
  apply consistent_iff in H. destruct H as [[U [A [S T]]] [FA FS]].
  apply consistent_iff. simpl. repeat split; auto.
  - apply unique_snoc; auto using same_session_sym.
  - now apply references_snoc.
Qed.

Lemma insert_verificationTokens_keeps v : keeps (insert_verificationTokens v).
Proof.
  intros d H. unfold insert_verificationTokens.
  destruct (existsb _ _) eqn:E; simpl; auto.
  apply consistent_iff in H. destruct H as [[U [A [S T]]] [FA FS]].
  apply consistent_iff. simpl. repeat split; auto.
  apply unique_snoc; auto using same_token_sym.
Qed.

Lemma delete_accounts_keeps w : keeps (delete_accounts w).
Proof.
  intros d H. apply consistent_iff in H.
  destruct H as [[U [A [S T]]] [FA FS]].
  apply consistent_iff. simpl. repeat split; auto.
  - now apply unique_filter.
  - eapply references_weaken; [| |exact FA]; auto.
    intros r Hin. apply filter_In in Hin. tauto.
Qed.

Lemma delete_sessions_keeps w : keeps (delete_sessions w).
Proof.
  intros d H. apply consistent_iff in H.
  destruct H as [[U [A [S T]]] [FA FS]].
  apply consistent_iff. simpl. repeat split; auto.
  - now apply unique_filter.
  - eapply references_weaken; [| |exact FS]; auto.
    intros r Hin. apply filter_In in Hin. tauto.
Qed.

Lemma delete_verificationTokens_keeps w :
  keeps (delete_verificationTokens w).
Proof.
  intros d H. apply consistent_iff in H.
  destruct H as [[U [A [S T]]] [FA FS]].
  apply consistent_iff. simpl. repeat split; auto.
  now apply unique_filter.
Qed.

(** The cascade is what keeps the references when users go. *)
Lemma cascade_references {R} (userId : R -> string) w us l :
  references userId us l = true ->
  references userId (filter (fun u => negb (w u)) us)
    (filter (fun r => negb (has_user (filter w us) (userId r))) l) = true.
Proof.
  intros H. apply references_iff. intros r Hin.
  apply filter_In in Hin. destruct Hin as [Hin Hk].
  apply negb_true_iff in Hk.
  pose proof (references_In userId us l r H Hin) as Hu.
  apply has_user_true_iff in Hu. destruct Hu as [u [Hu Hid]].
  apply has_user_true_iff. exists u. split; auto.
  apply filter_In. split; auto. apply negb_true_iff.
  destruct (w u) eqn:W; auto.
  assert (has_user (filter w us) (userId r) = true); [|congruence].
  apply has_user_true_iff. exists u. split; auto.
  apply filter_In. auto.
Qed.

Lemma delete_users_keeps w : keeps (delete_users w).
Proof.
  intros d H. apply consistent_iff in H.
  destruct H as [[U [A [S T]]] [FA FS]].
  apply consistent_iff. simpl. repeat split; auto using unique_filter.
  - now apply cascade_references.
  - now apply cascade_references.
Qed.

Lemma select_keeps {A} (rows : schema -> list A) :
  keeps (fun d => (Ok (rows d), d)).
Proof. intros d H. exact H. Qed.

Lemma update_users_keeps set w : keeps (update_users set w).
Proof.
  intros d H. unfold update_users.
  set (g := fun r => if w r then set r else r).
  destruct (forallb _ _) eqn:K; simpl.
  - apply consistent_iff in H. destruct H as [[U [A [S T]]] [FA FS]].
    assert (Hid : forall u, In u (users_of d) ->
                    users.id (g u) = users.id u).
    { intros u Hin. unfold g. destruct (w u) eqn:W; auto.
      rewrite forallb_forall in K. apply eq_true_iff.
      apply (K u). apply filter_In. auto. }
    apply consistent_iff. simpl. unfold update_rows. fold g.
    repeat split; auto.
    + rewrite unique_map_keys; auto.
      intros a b Ha Hb. unfold same_user. now rewrite !Hid.
    + eapply references_weaken; [| |exact FA]; auto.
      intros uid. now rewrite has_user_map_keys.
    + eapply references_weaken; [| |exact FS]; auto.
      intros uid. now rewrite has_user_map_keys.
  - destruct (unique same_user _) eqn:U'; simpl; auto.
    destruct (foreign_keys_ok _) eqn:F'; simpl; auto.
    apply consistent_iff in H. destruct H as [[U [A [S T]]] _].
    apply foreign_keys_ok_iff in F'. simpl in F'.
    apply consistent_iff. simpl. tauto.
Qed.

Lemma update_sessions_keeps set w : keeps (update_sessions set w).
Proof.
  intros d H. unfold update_sessions.
  set (g := fun r => if w r then set r else r).
  apply consistent_iff in H. destruct H as [[U [A [S T]]] [FA FS]].
  assert (Hfk : references sessions.userId (users_of d)
                  (map set (filter w (sessions_of d))) = true ->
                references sessions.userId (users_of d)
                  (update_rows set w (sessions_of d)) = true).
  { intros Hset. apply references_iff. intros r Hin.
    apply update_rows_In in Hin. destruct Hin as [Hin|[r0 [Hin ->]]].
    - now apply (references_In sessions.userId _ _ r FS).
    - apply (references_In sessions.userId _ _ (set r0) Hset).
      now apply in_map. }
  destruct (forallb _ _) eqn:K; simpl.
  - destruct (references _ _ (map set _)) eqn:F'; simpl;
      apply consistent_iff; simpl; repeat split; auto.
    unfold update_rows. fold g. rewrite unique_map_keys; auto.
    assert (Hid : forall s, In s (sessions_of d) ->
                    sessions.sessionToken (g s) = sessions.sessionToken s).
    { intros s Hin. unfold g. destruct (w s) eqn:W; auto.
      rewrite forallb_forall in K. apply eq_true_iff.
      apply (K s). apply filter_In. auto. }
    intros a b Ha Hb. unfold same_session. now rewrite !Hid.
  - destruct (unique same_session (update_rows _ _ _)) eqn:U'; simpl;
      [|apply consistent_iff; simpl; tauto].
    destruct (references _ _ (map set _)) eqn:F'; simpl;
      apply consistent_iff; simpl; repeat split; auto.
Qed.

(** *** Calls *)

(** A statement sent to the client leaves the database it found or
    the database the statement made. *)
Lemma issue_keeps {A} (q : statement A) c :
  keeps q -> consistent (database c) ->
  consistent (database (snd (issue q c))).
Proof.
  intros Hq H. unfold issue. destruct (next_fault c); simpl; auto.
  specialize (Hq (database c) H).
  destruct (q (database c)) as [r d]. exact Hq.
Qed.

Lemma get_client {R} (q : statement (list R)) c :
  snd (get q c) = snd (issue q c).
Proof. unfold get. destruct (issue q c). reflexivity. Qed.

Lemma run_client {A} (q : statement A) c :
  snd (run q c) = snd (issue q c).
Proof. unfold run. destruct (issue q c). reflexivity. Qed.

Lemma get_keeps {R} (q : statement (list R)) c :
  keeps q -> consistent (database c) ->
  consistent (database (snd (get q c))).
Proof. rewrite get_client. apply issue_keeps. Qed.

Lemma run_keeps {A} (q : statement A) c :
  keeps q -> consistent (database c) ->
  consistent (database (snd (run q c))).
Proof. rewrite run_client. apply issue_keeps. Qed.

(** What follows a statement in a method does not touch the client. *)
Lemma bind_pure_client {A B} (m : M A) (k : A -> result B) c :
  snd ((x <- m ;; (fun c' => (k x, c'))) c) = snd (m c).
Proof. unfold bind. destruct (m c) as [[a|e] c']; reflexivity. Qed.

(** Awaiting does not touch the client either. *)
Lemma awaited_client {A} (m : M (awaitable A)) c :
  snd (awaited m c) = snd (m c).
Proof. unfold awaited. destruct (m c) as [[x|e] c']; reflexivity. Qed.

Lemma linkAccount_client rawAccount c :
  snd (linkAccount rawAccount c)
  = snd (issue (insert_accounts (account_values rawAccount)) c).
Proof.
  unfold linkAccount, bind, ret, throw, get, hand_back.
  destruct (issue _ c) as [[[|row rows]|e] c'], (kind c); reflexivity.
Qed.

Lemma useVerificationToken_client token c :
  snd (useVerificationToken token c)
  = snd (issue
           (delete_verificationTokens
              (fun t =>
                 and_ (eq (verificationTokens.identifier t)
                          (TokenParams.identifier token))
                      (eq (verificationTokens.token t)
                          (TokenParams.token token)))) c).
Proof.
  unfold useVerificationToken, try_catch, bind, ret, throw, get, hand_back.
  destruct (issue _ c) as [[rows|e] c'], (kind c); reflexivity.
Qed.

(** The constraints that hold before a call of the adapter hold after
    it, whether the call returns or throws. *)
Lemma adapter_keeps_consistent k c :
  consistent (database c) -> consistent (database (invoke k c)).
Proof.
  intros H. destruct k; simpl.
  - apply get_keeps; auto using insert_users_keeps.
  - unfold getUser, ret. rewrite bind_pure_client.
    apply get_keeps; auto. apply select_keeps.
  - unfold getUserByEmail, ret. rewrite bind_pure_client.
    apply get_keeps; auto. apply select_keeps.
  - apply get_keeps; auto using insert_sessions_keeps.
  - unfold getSessionAndUser, ret. rewrite bind_pure_client.
    apply get_keeps; auto. apply select_keeps.
  - unfold updateUser. destruct (not_string _); simpl; auto.
    apply get_keeps; auto using update_users_keeps.
  - apply get_keeps; auto using update_sessions_keeps.
  - rewrite linkAccount_client.
    apply issue_keeps; auto using insert_accounts_keeps.
  - unfold getUserByAccount, ret. rewrite bind_pure_client.
    apply get_keeps; auto. apply select_keeps.
  - unfold deleteSession, ret. rewrite bind_pure_client.
    apply get_keeps; auto using delete_sessions_keeps.
  - apply get_keeps; auto using insert_verificationTokens_keeps.
  - rewrite useVerificationToken_client.
    apply issue_keeps; auto using delete_verificationTokens_keeps.
  - apply get_keeps; auto using delete_users_keeps.
  - unfold unlinkAccount, ret. rewrite bind_pure_client.
    apply run_keeps; auto using delete_accounts_keeps.
Qed.

(** Every client the adapter reaches from an empty database holds a
    consistent database. *)
Lemma reachable_consistent c : reachable c -> consistent (database c).
Proof.
  induction 1 as [kd f|k c _ IH].
  - split; reflexivity.
  - now apply adapter_keeps_consistent.
Qed.

(** * Further properties of the adapter *)

(** ** Rows appended to a table *)

Section Appended.
Context {R : Type}.
Implicit Types (p : R -> bool) (l : list R).

Lemma existsb_false_In p l r :
  existsb p l = false -> In r l -> p r = false.
Proof.
  intros H Hin. destruct (p r) eqn:E; auto.
  assert (existsb p l = true) by (apply existsb_exists; eauto).
  congruence.
Qed.

Lemma filter_snoc_only p l v :
  (forall r, In r l -> p r = false) -> p v = true ->
  filter p (l ++ [v]) = [v].
Proof.
  intros H Hv. rewrite filter_app, filter_none by assumption.
  simpl. now rewrite Hv.
Qed.

Lemma filter_snoc_others p l v :
  (forall r, In r l -> p r = false) -> p v = true ->
  filter (fun r => negb (p r)) (l ++ [v]) = l.
Proof.
  intros H Hv. rewrite filter_app, filter_negb_none by assumption.
  simpl. rewrite Hv. simpl. apply app_nil_r.
Qed.

Lemma filter_snoc_miss p l v :
  p v = false -> filter p (l ++ [v]) = filter p l.
Proof.
  intros Hv. rewrite filter_app. simpl. rewrite Hv. apply app_nil_r.
Qed.
End Appended.

(** ** Users *)

Lemma createUser_returned randomUUID data c r c' :
  awaited (createUser randomUUID data) c = (Ok r, c') ->
  let row := user_values data randomUUID in
  r = val row
  /\ (forall u, In u (users_of (database c)) -> users.id u <> randomUUID)
  /\ c' = after c (with_users (database c) (users_of (database c) ++ [row])).
Proof.
  intros H row. unfold createUser in H. apply get_returns in H.
  destruct H as [_ [rows [d [Hq [-> ->]]]]].
  unfold insert_users in Hq. fold row in Hq.
  destruct (existsb _ _) eqn:E; [discriminate|].
  injection Hq as <- <-. repeat split; auto.
  intros u Hin Hid. pose proof (existsb_false_In _ _ u E Hin) as S.
  unfold same_user in S. apply eq_false_iff in S. apply S.
  subst row. simpl. congruence.
Qed.

(** X1.  A user that [createUser] has returned is what [getUser] gives
    back for its id when the store answers: the same row, field by
    field, and the lookup leaves the database as the creation left
    it. *)
Theorem createUser_then_getUser randomUUID data c r c' :
  awaited (createUser randomUUID data) c = (Ok r, c') ->
  next_fault c' = None ->
  r = val (user_values data randomUUID)
  /\ awaited (getUser randomUUID) c' = (Ok r, after c' (database c')).
Proof.
  intros H F. apply createUser_returned in H.
  destruct H as [-> [Hnew ->]]. split; [reflexivity|].
  rewrite getUser_selects by assumption. cbv zeta. simpl.
  rewrite filter_snoc_only.
  - simpl. destruct (kind c); reflexivity.
  - intros u Hin. apply eq_false_iff. auto.
  - apply eq_true_iff. reflexivity.
Qed.

Lemma createUser_then_getUser_witness :
  awaited (getUser "3f2c")
    (after sound (with_users sample [alice; user_values carol "3f2c"]))
  = (Ok (val (user_values carol "3f2c")),
     after (after sound (with_users sample [alice; user_values carol "3f2c"]))
       (with_users sample [alice; user_values carol "3f2c"])).
Proof.
  apply (createUser_then_getUser "3f2c" carol sound
           (val (user_values carol "3f2c"))
           (after sound
              (with_users sample [alice; user_values carol "3f2c"])));
    reflexivity.
Defined.

(** X2.  The email column is not unique: [createUser] stores a user
    whose email another user already has, and [getUserByEmail] then
    still returns a user stored before, not the new one.  When no user
    had the email, it returns the new user. *)
Theorem createUser_then_getUserByEmail randomUUID data c r c' :
  awaited (createUser randomUUID data) c = (Ok r, c') ->
  next_fault c' = None ->
  let users_before := users_of (database c) in
  ((forall u, In u users_before -> users.email u <> NewUser.email data) ->
   awaited (getUserByEmail (NewUser.email data)) c'
   = (Ok r, after c' (database c')))
  /\ (forall u,
      In u users_before -> users.email u = NewUser.email data ->
      exists u0,
        In u0 users_before /\ users.email u0 = NewUser.email data
        /\ users.id u0 <> randomUUID
        /\ awaited (getUserByEmail (NewUser.email data)) c'
           = (Ok (val u0), after c' (database c'))).
Proof.
  intros H F before. apply createUser_returned in H.
  destruct H as [-> [Hnew ->]]. fold before in Hnew. split.
  - intros Hno. rewrite getUserByEmail_selects by assumption.
    cbv zeta. simpl. fold before.
    rewrite filter_snoc_only.
    + simpl. destruct (kind c); reflexivity.
    + intros u Hin. apply eq_false_iff. auto.
    + apply eq_true_iff. reflexivity.
  - intros u Hin Hmail. rewrite getUserByEmail_selects by assumption.
    cbv zeta. simpl. fold before.
    rewrite filter_app.
    destruct (first_filter_some
                (fun u => eq (users.email u) (NewUser.email data))
                before u Hin) as [u0 E].
    { now apply eq_true_iff. }
    pose proof (first_filter_In _ _ _ E) as [Hin0 Hm0].
    apply eq_true_iff in Hm0. exists u0. repeat split; auto.
    destruct (filter _ before) as [|x m]; [discriminate|].
    simpl in E. injection E as ->. simpl.
    destruct (kind c); reflexivity.
Qed.

Lemma createUser_then_getUserByEmail_witness :
  awaited (getUserByEmail "c@d.com")
    (after sound (with_users sample [alice; user_values carol "3f2c"]))
  = (Ok (val (user_values carol "3f2c")),
     after (after sound (with_users sample [alice; user_values carol "3f2c"]))
       (with_users sample [alice; user_values carol "3f2c"]))
  /\ exists u0,
       In u0 (users_of sample) /\ users.email u0 = "a@b.com"
       /\ users.id u0 <> "77aa"
       /\ awaited (getUserByEmail "a@b.com")
            (after sound
               (with_users sample [alice; user_values alias "77aa"]))
          = (Ok (val u0),
             after
               (after sound
                  (with_users sample [alice; user_values alias "77aa"]))
               (with_users sample [alice; user_values alias "77aa"])).
Proof.
  split.
  - apply (proj1 (createUser_then_getUserByEmail "3f2c" carol sound
                    (val (user_values carol "3f2c"))
                    (after sound
                       (with_users sample
                          [alice; user_values carol "3f2c"]))
                    eq_refl eq_refl)).
    intros u [<-|[]]. discriminate.
  - apply (proj2 (createUser_then_getUserByEmail "77aa" alias sound
                    (val (user_values alias "77aa"))
                    (after sound
                       (with_users sample
                          [alice; user_values alias "77aa"]))
                    eq_refl eq_refl)
             alice); simpl; auto.
Defined.

(** X3.  On a store that answers, [getUser] returns a stored user with
    the id whenever there is one, and with unique ids exactly that
    user; what it returns is always a stored user with the id.
    [getUserByEmail] likewise returns a stored user whose email is the
    argument, character for character, whenever there is one. *)
Theorem getUser_finds_stored c :
  next_fault c = None ->
  let d := database c in
  (forall id u,
     In u (users_of d) -> users.id u = id ->
     exists u0,
       In u0 (users_of d) /\ users.id u0 = id
       /\ (unique same_user (users_of d) = true -> u0 = u)
       /\ awaited (getUser id) c = (Ok (val u0), after c d))
  /\ (forall id u c',
      awaited (getUser id) c = (Ok (val u), c') ->
      In u (users_of d) /\ users.id u = id)
  /\ (forall email u,
      In u (users_of d) -> users.email u = email ->
      exists u0,
        In u0 (users_of d) /\ users.email u0 = email
        /\ awaited (getUserByEmail email) c = (Ok (val u0), after c d))
  /\ (forall email u c',
      awaited (getUserByEmail email) c = (Ok (val u), c') ->
      In u (users_of d) /\ users.email u = email).
Proof.
  intros F d. split; [|split; [|split]].
  - intros id u Hin Hid. rewrite getUser_selects by assumption.
    cbv zeta. fold d.
    destruct (first_filter_some (fun u => eq (users.id u) id)
                (users_of d) u Hin) as [u0 E].
    { now apply eq_true_iff. }
    pose proof (first_filter_In _ _ _ E) as [Hin0 Hm0].
    apply eq_true_iff in Hm0. exists u0. repeat split; auto.
    + intros U. apply (unique_In_eq same_user (users_of d)); auto;
        unfold same_user; apply eq_true_iff; congruence.
    + rewrite E. now rewrite found_either_kind.
  - intros id u c' H. rewrite getUser_selects in H by assumption.
    cbv zeta in H. fold d in H.
    destruct (first _) as [| |x] eqn:E in H;
      try (destruct (kind c); discriminate).
    rewrite found_either_kind in H.
    injection H as -> _. apply first_filter_In in E.
    destruct E as [Hin Hm]. apply eq_true_iff in Hm. auto.
  - intros email u Hin Hm. rewrite getUserByEmail_selects by assumption.
    cbv zeta. fold d.
    destruct (first_filter_some (fun u => eq (users.email u) email)
                (users_of d) u Hin) as [u0 E].
    { now apply eq_true_iff. }
    pose proof (first_filter_In _ _ _ E) as [Hin0 Hm0].
    apply eq_true_iff in Hm0. exists u0. repeat split; auto.
    rewrite E. now rewrite found_either_kind.
  - intros email u c' H. rewrite getUserByEmail_selects in H by assumption.
    cbv zeta in H. fold d in H.
    destruct (first _) as [| |x] eqn:E in H;
      try (destruct (kind c); discriminate).
    rewrite found_either_kind in H.
    injection H as -> _. apply first_filter_In in E.
    destruct E as [Hin Hm]. apply eq_true_iff in Hm. auto.
Qed.

Lemma getUser_finds_stored_witness :
  (exists u0,
     In u0 (users_of sample) /\ users.id u0 = "u1"
     /\ (unique same_user (users_of sample) = true -> u0 = alice)
     /\ awaited (getUser "u1") sound = (Ok (val u0), after sound sample))
  /\ (In alice (users_of sample) /\ users.email alice = "a@b.com").
Proof.
  pose proof (getUser_finds_stored sound eq_refl) as [H1 [_ [_ H4]]].
  split.
  - apply (H1 "u1" alice); simpl; auto.
  - apply (H4 "a@b.com" alice (after sound sample)). reflexivity.
Defined.

(** X4.  The four lookups never write: whatever the arguments, whether
    the store answers or fails, the database after [getUser],
    [getUserByEmail], [getSessionAndUser] or [getUserByAccount] is the
    database before. *)
Theorem lookups_never_write c :
  (forall id, database (snd (getUser id c)) = database c)
  /\ (forall email, database (snd (getUserByEmail email c)) = database c)
  /\ (forall sessionToken,
        database (snd (getSessionAndUser sessionToken c)) = database c)
  /\ (forall account,
        database (snd (getUserByAccount account c)) = database c).
Proof.
  assert (G : forall R (rows : schema -> list R),
             database (snd (get (fun d => (Ok (rows d), d)) c))
             = database c).
  { intros R rows. rewrite get_client. unfold issue.
    destruct (next_fault c); reflexivity. }
  repeat split; intros x.
  - unfold getUser, ret. rewrite bind_pure_client. apply G.
  - unfold getUserByEmail, ret. rewrite bind_pure_client. apply G.
  - unfold getSessionAndUser, ret. rewrite bind_pure_client. apply G.
  - unfold getUserByAccount, ret. rewrite bind_pure_client. apply G.
Qed.

(** ** Sessions *)

Lemma same_session_false_iff a b :
  same_session a b = false
  <-> sessions.sessionToken a <> sessions.sessionToken b.
Proof. unfold same_session. apply eq_false_iff. Qed.

Lemma createSession_returned data c r c' :
  awaited (createSession data) c = (Ok r, c') ->
  r = val data
  /\ (forall s, In s (sessions_of (database c)) ->
        sessions.sessionToken s <> sessions.sessionToken data)
  /\ has_user (users_of (database c)) (sessions.userId data) = true
  /\ c' = after c (with_sessions (database c)
                     (sessions_of (database c) ++ [data])).
Proof.
  intros H. unfold createSession in H. apply get_returns in H.
  destruct H as [_ [rows [d [Hq [-> ->]]]]].
  unfold insert_sessions in Hq.
  destruct (existsb _ _) eqn:E; [discriminate|].
  destruct (has_user _ _) eqn:E2; [|discriminate].
  injection Hq as <- <-. repeat split; auto.
  intros s Hin Hid. pose proof (existsb_false_In _ _ s E Hin) as S.
  apply same_session_false_iff in S. congruence.
Qed.

(** X5.  On a store that answers, [createSession] returns the session
    it was given, appended to the sessions, exactly when no stored
    session has its token and a stored user has its [userId].  A token
    already stored, or a [userId] no user has, makes the call throw,
    and then the database is unchanged. *)
Theorem createSession_checks_keys data c :
  next_fault c = None ->
  let d := database c in
  ((forall s, In s (sessions_of d) ->
      sessions.sessionToken s <> sessions.sessionToken data) ->
   (exists u, In u (users_of d) /\ users.id u = sessions.userId data) ->
   awaited (createSession data) c =
     (Ok (val data), after c (with_sessions d (sessions_of d ++ [data]))))
  /\ (forall s,
      In s (sessions_of d) ->
      sessions.sessionToken s = sessions.sessionToken data ->
      awaited (createSession data) c = (Throw PRIMARYKEY, after c d))
  /\ ((forall s, In s (sessions_of d) ->
         sessions.sessionToken s <> sessions.sessionToken data) ->
      (forall u, In u (users_of d) -> users.id u <> sessions.userId data) ->
      awaited (createSession data) c = (Throw FOREIGNKEY, after c d)).
Proof.
  intros F d.
  assert (Hnew : (forall s, In s (sessions_of d) ->
                    sessions.sessionToken s <> sessions.sessionToken data) ->
                 existsb (same_session data) (sessions_of d) = false).
  { intros H. apply not_true_is_false. intros E.
    apply existsb_exists in E. destruct E as [s [Hin E]].
    apply eq_true_iff in E. apply (H s Hin). congruence. }
  split; [|split].
  - intros Hs Hu. unfold createSession.
    rewrite get_answers by assumption. unfold insert_sessions. fold d.
    rewrite (Hnew Hs).
    replace (has_user (users_of d) (sessions.userId data)) with true;
      [reflexivity|].
    symmetry. now apply has_user_true_iff.
  - intros s Hin Hs. unfold createSession.
    rewrite get_answers by assumption. unfold insert_sessions. fold d.
    replace (existsb (same_session data) (sessions_of d)) with true;
      [reflexivity|].
    symmetry. apply existsb_exists. exists s. split; auto.
    apply eq_true_iff. congruence.
  - intros Hs Hu. unfold createSession.
    rewrite get_answers by assumption. unfold insert_sessions. fold d.
    rewrite (Hnew Hs).
    replace (has_user (users_of d) (sessions.userId data)) with false;
      [reflexivity|].
    symmetry. now apply has_user_false_iff.
Qed.

Lemma createSession_checks_keys_witness :
  awaited (createSession session_s2) sound =
    (Ok (val session_s2),
     after sound (with_sessions sample [session_s1; session_s2]))
  /\ awaited (createSession session_s1) sound
     = (Throw PRIMARYKEY, after sound sample)
  /\ awaited (createSession session_ghost) sound
     = (Throw FOREIGNKEY, after sound sample).
Proof.
  split; [|split].
  - apply (proj1 (createSession_checks_keys session_s2 sound eq_refl)).
    + intros s [<-|[]]. discriminate.
    + exists alice. simpl. auto.
  - apply (proj1 (proj2 (createSession_checks_keys session_s1 sound eq_refl))
             session_s1); simpl; auto.
  - apply (proj2 (proj2 (createSession_checks_keys
                           session_ghost sound eq_refl))).
    + intros s [<-|[]]. discriminate.
    + intros u [<-|[]]. discriminate.
Defined.

(** X6.  A session that [createSession] has returned is found by
    [getSessionAndUser] under its token when the store answers: the
    pair holds that very session and a stored user whose id is the
    session's [userId]. *)
Theorem createSession_then_getSessionAndUser data c r c' :
  awaited (createSession data) c = (Ok r, c') ->
  next_fault c' = None ->
  exists u,
    In u (users_of (database c)) /\ users.id u = sessions.userId data
    /\ awaited (getSessionAndUser (sessions.sessionToken data)) c'
       = (Ok (val (mkSessionAndUser data u)), after c' (database c')).
Proof.
  intros H F. apply createSession_returned in H.
  destruct H as [-> [Hnew [Hu ->]]].
  rewrite getSessionAndUser_selects by assumption. cbv zeta. simpl.
  rewrite filter_snoc_only.
  - unfold innerJoin. cbn [flat_map]. rewrite app_nil_r.
    apply has_user_true_iff in Hu. destruct Hu as [u [Hin Hid]].
    destruct (first_filter_some
                (fun u => eq (users.id u) (sessions.userId data))
                (users_of (database c)) u Hin) as [u0 E].
    { now apply eq_true_iff. }
    pose proof (first_filter_In _ _ _ E) as [Hin0 Hm0].
    apply eq_true_iff in Hm0. exists u0. repeat split; auto.
    destruct (filter _ (users_of (database c))) as [|x m];
      [discriminate|].
    simpl in E. injection E as ->. simpl.
    destruct (kind c); reflexivity.
  - intros s Hin. apply eq_false_iff. auto.
  - apply eq_true_iff. reflexivity.
Qed.

Lemma createSession_then_getSessionAndUser_witness :
  exists u,
    In u (users_of sample) /\ users.id u = "u1"
    /\ awaited (getSessionAndUser "s2")
         (after sound (with_sessions sample [session_s1; session_s2]))
       = (Ok (val (mkSessionAndUser session_s2 u)),
          after (after sound (with_sessions sample [session_s1; session_s2]))
            (with_sessions sample [session_s1; session_s2])).
Proof.
  apply (createSession_then_getSessionAndUser session_s2 sound
           (val session_s2)
           (after sound (with_sessions sample [session_s1; session_s2])));
    reflexivity.
Defined.

(** X7.  Deleting a session right after creating it undoes the
    creation: [deleteSession] returns the session that [createSession]
    returned and the database is again the one before the creation. *)
Theorem createSession_then_deleteSession data c r c' :
  awaited (createSession data) c = (Ok r, c') ->
  next_fault c' = None ->
  awaited (deleteSession (sessions.sessionToken data)) c'
  = (Ok r, after c' (database c)).
Proof.
  intros H F. apply createSession_returned in H.
  destruct H as [-> [Hnew [_ ->]]].
  rewrite deleteSession_deletes by assumption. cbv zeta.
  unfold with_sessions. simpl.
  assert (Hold : forall s, In s (sessions_of (database c)) ->
                   eq (sessions.sessionToken s) (sessions.sessionToken data)
                   = false)
    by (intros s Hin; apply eq_false_iff; auto).
  pose proof (eq_refl : sessions.sessionToken data
                        = sessions.sessionToken data) as Hself.
  apply eq_true_iff in Hself.
  rewrite (filter_snoc_only
             (fun s => eq (sessions.sessionToken s)
                          (sessions.sessionToken data))
             (sessions_of (database c)) data Hold Hself).
  rewrite (filter_snoc_others
             (fun s => eq (sessions.sessionToken s)
                          (sessions.sessionToken data))
             (sessions_of (database c)) data Hold Hself).
  rewrite schema_eta. simpl. destruct (kind c); reflexivity.
Qed.

Lemma createSession_then_deleteSession_witness :
  awaited (deleteSession "s2")
    (after sound (with_sessions sample [session_s1; session_s2]))
  = (Ok (val session_s2),
     after (after sound (with_sessions sample [session_s1; session_s2]))
       sample).
Proof.
  apply (createSession_then_deleteSession session_s2 sound
           (val session_s2)
           (after sound (with_sessions sample [session_s1; session_s2])));
    reflexivity.
Defined.

(** X8.  On a store that answers, [deleteSession] with a token some
    session has returns a stored session with that token, the very one
    when tokens are unique; afterwards no session has the token, every
    session with another token is still there, and users, accounts
    and verification tokens are untouched. *)
Theorem deleteSession_removes sessionToken c s :
  next_fault c = None ->
  In s (sessions_of (database c)) ->
  sessions.sessionToken s = sessionToken ->
  exists s0 c',
    awaited (deleteSession sessionToken) c = (Ok (val s0), c')
    /\ In s0 (sessions_of (database c))
    /\ sessions.sessionToken s0 = sessionToken
    /\ (unique same_session (sessions_of (database c)) = true -> s0 = s)
    /\ (forall x, In x (sessions_of (database c')) <->
                  In x (sessions_of (database c))
                  /\ sessions.sessionToken x <> sessionToken)
    /\ users_of (database c') = users_of (database c)
    /\ accounts_of (database c') = accounts_of (database c)
    /\ verificationTokens_of (database c')
       = verificationTokens_of (database c).
Proof.
  intros F Hin Hs. rewrite deleteSession_deletes by assumption.
  cbv zeta.
  set (w := fun x => eq (sessions.sessionToken x) sessionToken).
  destruct (first_filter_some w (sessions_of (database c)) s Hin)
    as [s0 E].
  { now apply eq_true_iff. }
  pose proof (first_filter_In _ _ _ E) as [Hin0 Hm0].
  apply eq_true_iff in Hm0.
  exists s0. eexists. rewrite E, found_either_kind.
  split; [reflexivity|].
  simpl. repeat split; auto.
  - intros U. apply (unique_In_eq same_session (sessions_of (database c)));
      auto; unfold same_session; apply eq_true_iff; congruence.
  - apply filter_In in H. tauto.
  - apply filter_In in H. destruct H as [_ H].
    apply negb_true_iff in H. now apply eq_false_iff.
  - intros [Hx Hne]. apply filter_In. split; auto.
    apply negb_true_iff. now apply eq_false_iff.
Qed.

Lemma deleteSession_removes_witness :
  exists s0 c',
    awaited (deleteSession "s1") sound = (Ok (val s0), c')
    /\ In s0 (sessions_of sample)
    /\ sessions.sessionToken s0 = "s1"
    /\ (unique same_session (sessions_of sample) = true -> s0 = session_s1)
    /\ (forall x, In x (sessions_of (database c')) <->
                  In x (sessions_of sample)
                  /\ sessions.sessionToken x <> "s1")
    /\ users_of (database c') = users_of sample
    /\ accounts_of (database c') = accounts_of sample
    /\ verificationTokens_of (database c') = verificationTokens_of sample.
Proof.
  apply (deleteSession_removes "s1" sound session_s1); simpl; auto.
Defined.

(** ** Verification tokens *)

Lemma same_token_true_iff a b :
  same_token a b = true
  <-> verificationTokens.identifier a = verificationTokens.identifier b
      /\ verificationTokens.token a = verificationTokens.token b.
Proof. unfold same_token. rewrite and_true_iff, !eq_true_iff. tauto. Qed.

(** X9.  On a store that answers, [createVerificationToken] returns the
    token it was given, appended to the stored tokens, exactly when no
    stored token has both its identifier and its token; a stored token
    that shares only one of the two is no obstacle.  When the pair is
    already stored the call throws and the database is unchanged. *)
Theorem createVerificationToken_checks_pair token c :
  next_fault c = None ->
  let d := database c in
  ((forall t, In t (verificationTokens_of d) ->
      ~ (verificationTokens.identifier t = verificationTokens.identifier token
         /\ verificationTokens.token t = verificationTokens.token token)) ->
   awaited (createVerificationToken token) c =
     (Ok (val token),
      after c (with_verificationTokens d
                 (verificationTokens_of d ++ [token]))))
  /\ (forall t,
      In t (verificationTokens_of d) ->
      verificationTokens.identifier t = verificationTokens.identifier token ->
      verificationTokens.token t = verificationTokens.token token ->
      awaited (createVerificationToken token) c
      = (Throw PRIMARYKEY, after c d)).
Proof.
  intros F d. split.
  - intros H. unfold createVerificationToken.
    rewrite get_answers by assumption.
    unfold insert_verificationTokens. fold d.
    replace (existsb (same_token token) (verificationTokens_of d))
      with false; [reflexivity|].
    symmetry. apply not_true_is_false. intros E.
    apply existsb_exists in E. destruct E as [t [Hin E]].
    apply same_token_true_iff in E. apply (H t Hin).
    destruct E. split; congruence.
  - intros t Hin Hi Ht. unfold createVerificationToken.
    rewrite get_answers by assumption.
    unfold insert_verificationTokens. fold d.
    replace (existsb (same_token token) (verificationTokens_of d))
      with true; [reflexivity|].
    symmetry. apply existsb_exists. exists t. split; auto.
    apply same_token_true_iff. split; congruence.
Qed.

Lemma createVerificationToken_checks_pair_witness :
  awaited (createVerificationToken token_def) sound =
    (Ok (val token_def),
     after sound (with_verificationTokens sample [token_abc; token_def]))
  /\ awaited (createVerificationToken token_abc) sound
     = (Throw PRIMARYKEY, after sound sample).
Proof.
  split.
  - apply (proj1 (createVerificationToken_checks_pair
                    token_def sound eq_refl)).
    intros t [<-|[]] [_ H]. discriminate.
  - apply (proj2 (createVerificationToken_checks_pair
                    token_abc sound eq_refl)
             token_abc); simpl; auto.
Defined.

Lemma delete_verificationTokens_last w d l v :
  verificationTokens_of d = l ++ [v] ->
  (forall t, In t l -> w t = false) -> w v = true ->
  delete_verificationTokens w d = (Ok [v], with_verificationTokens d l).
Proof.
  intros E Hold Hself. unfold delete_verificationTokens. rewrite E.
  now rewrite filter_snoc_only, filter_snoc_others.
Qed.

(** X10.  A verification token that [createVerificationToken] has
    returned is consumed by [useVerificationToken] with its identifier
    and token when the store answers: the call returns that row, and
    the database is again the one before the creation. *)
Theorem createVerificationToken_then_use token c r c' :
  awaited (createVerificationToken token) c = (Ok r, c') ->
  next_fault c' = None ->
  r = val token
  /\ awaited
       (useVerificationToken
          (TokenParams.mk (verificationTokens.identifier token)
                          (verificationTokens.token token))) c'
     = (Ok r, after c' (database c)).
Proof.
  intros H F. unfold createVerificationToken in H.
  apply get_returns in H. destruct H as [_ [rows [d [Hq [-> ->]]]]].
  unfold insert_verificationTokens in Hq.
  destruct (existsb _ _) eqn:E; [discriminate|].
  injection Hq as <- <-. split; [reflexivity|].
  rewrite useVerificationToken_awaited. cbv zeta.
  rewrite get_answers by assumption.
  erewrite delete_verificationTokens_last.
  - simpl. unfold with_verificationTokens. simpl.
    rewrite schema_eta. destruct (kind c); reflexivity.
  - reflexivity.
  - intros t Hin. pose proof (existsb_false_In _ _ t E Hin) as S.
    rewrite <- S. unfold same_token, and_, eq. simpl.
    now rewrite (String.eqb_sym (verificationTokens.identifier t)),
      (String.eqb_sym (verificationTokens.token t)).
  - apply and_true_iff. split; apply eq_true_iff; reflexivity.
Qed.

Lemma createVerificationToken_then_use_witness :
  val token_def = val token_def
  /\ awaited (useVerificationToken (TokenParams.mk "x@y.com" "def"))
       (after sound (with_verificationTokens sample [token_abc; token_def]))
     = (Ok (val token_def),
        after
          (after sound
             (with_verificationTokens sample [token_abc; token_def]))
          sample).
Proof.
  apply (createVerificationToken_then_use token_def sound
           (val token_def)
           (after sound
              (with_verificationTokens sample [token_abc; token_def])));
    reflexivity.
Defined.

(** ** Accounts *)

Lemma same_account_true_iff a b :
  same_account a b = true
  <-> accounts.provider a = accounts.provider b
      /\ accounts.providerAccountId a = accounts.providerAccountId b.
Proof. unfold same_account. rewrite and_true_iff, !eq_true_iff. tauto. Qed.

Lemma new_account_iff row l :
  existsb (same_account row) l = false
  <-> forall a, In a l ->
        ~ (accounts.provider a = accounts.provider row
           /\ accounts.providerAccountId a = accounts.providerAccountId row).
Proof.
  split.
  - intros E a Hin [Hp Hi].
    pose proof (existsb_false_In _ _ a E Hin) as S.
    assert (same_account row a = true); [|congruence].
    apply same_account_true_iff. split; congruence.
  - intros H. apply not_true_is_false. intros E.
    apply existsb_exists in E. destruct E as [a [Hin E]].
    apply same_account_true_iff in E. apply (H a Hin).
    destruct E. split; congruence.
Qed.

(** On a synchronous client a call of [linkAccount] that returns has
    stored the account. *)
Lemma linkAccount_returned rawAccount c r c' :
  kind c = sync ->
  awaited (linkAccount rawAccount) c = (Ok r, c') ->
  let row := account_values rawAccount in
  existsb (same_account row) (accounts_of (database c)) = false
  /\ has_user (users_of (database c)) (AdapterAccount.userId rawAccount)
     = true
  /\ r = val (account_of_row row)
  /\ c' = after c (with_accounts (database c)
                     (accounts_of (database c) ++ [row])).
Proof.
  intros K H row. rewrite linkAccount_awaited in H. cbv zeta in H.
  rewrite K in H. fold row in H. unfold issue in H.
  destruct (next_fault c); [discriminate|].
  unfold insert_accounts in H.
  destruct (existsb _ _) eqn:E; [discriminate|].
  destruct (has_user _ _) eqn:E2; [|discriminate].
  simpl in H. injection H as <- <-. auto.
Qed.

(** On a client of either kind, the account is stored when the store
    answers, the keys are new and the user exists. *)
Lemma linkAccount_stores rawAccount c :
  next_fault c = None ->
  let row := account_values rawAccount in
  existsb (same_account row) (accounts_of (database c)) = false ->
  has_user (users_of (database c)) (AdapterAccount.userId rawAccount)
  = true ->
  snd (awaited (linkAccount rawAccount) c)
  = after c (with_accounts (database c)
               (accounts_of (database c) ++ [row])).
Proof.
  intros F row E E2. rewrite linkAccount_awaited. cbv zeta.
  rewrite issue_insert_accounts by assumption. fold row. rewrite E.
  replace (accounts.userId row) with (AdapterAccount.userId rawAccount)
    by reflexivity.
  rewrite E2. reflexivity.
Qed.

(** X11.  On a store that answers, when an account with the same
    provider and provider account id is already stored, or when no
    stored user has the account's [userId], [linkAccount] stores
    nothing.  On a synchronous client it throws the error of the key;
    on an asynchronous client the error rejects a Promise that nobody
    awaits, and the call returns its object all the same. *)
Theorem linkAccount_checks_keys rawAccount c :
  next_fault c = None ->
  let d := database c in
  let outcome (e : exn) :=
    (match kind c with
     | sync => Throw e
     | async => Ok (val (account_from promise_read))
     end, after c d) in
  (forall a,
     In a (accounts_of d) ->
     accounts.provider a = AdapterAccount.provider rawAccount ->
     accounts.providerAccountId a
     = AdapterAccount.providerAccountId rawAccount ->
     awaited (linkAccount rawAccount) c = outcome PRIMARYKEY)
  /\ ((forall a, In a (accounts_of d) ->
         ~ (accounts.provider a = AdapterAccount.provider rawAccount
            /\ accounts.providerAccountId a
               = AdapterAccount.providerAccountId rawAccount)) ->
      (forall u, In u (users_of d) ->
         users.id u <> AdapterAccount.userId rawAccount) ->
      awaited (linkAccount rawAccount) c = outcome FOREIGNKEY).
Proof.
  intros F d outcome. subst outcome. split.
  - intros a Hin Hp Hi. rewrite linkAccount_awaited. cbv zeta.
    rewrite issue_insert_accounts by assumption. fold d.
    replace (existsb _ (accounts_of d)) with true.
    + simpl. destruct (kind c); reflexivity.
    + symmetry. apply existsb_exists. exists a. split; auto.
      apply same_account_true_iff. simpl. split; congruence.
  - intros Ha Hu. rewrite linkAccount_awaited. cbv zeta.
    rewrite issue_insert_accounts by assumption. fold d.
    replace (existsb _ (accounts_of d)) with false.
    + replace (has_user (users_of d) _) with false.
      * simpl. destruct (kind c); reflexivity.
      * symmetry. now apply has_user_false_iff.
    + symmetry. apply new_account_iff. exact Ha.
Qed.

Lemma linkAccount_checks_keys_witness :
  awaited
    (linkAccount
       (AdapterAccount.mk "u1" "oauth" "github" "123" undefined undefined
          undefined undefined undefined undefined undefined)) sound
  = (Throw PRIMARYKEY, after sound sample)
  /\ awaited
       (linkAccount
          (AdapterAccount.mk "u9" "oauth" "gitlab" "9" undefined undefined
             undefined undefined undefined undefined undefined)) sound
     = (Throw FOREIGNKEY, after sound sample)
  /\ awaited
       (linkAccount
          (AdapterAccount.mk "u1" "oauth" "github" "123" undefined undefined
             undefined undefined undefined undefined undefined))
       sound_async
     = (Ok (val (account_from promise_read)), after sound_async sample).
Proof.
  split; [|split].
  - apply (proj1 (linkAccount_checks_keys _ sound eq_refl) github_123);
      simpl; auto.
  - apply (proj2 (linkAccount_checks_keys _ sound eq_refl)).
    + intros a [<-|[]] [H _]. discriminate.
    + intros u [<-|[]]. discriminate.
  - apply (proj1 (linkAccount_checks_keys _ sound_async eq_refl)
             github_123); simpl; auto.
Defined.

(** X12.  After [linkAccount] has stored an account (the store
    answered, the keys were new, the user existed),
    [getUserByAccount] with the account's provider and provider
    account id, on a store that answers, returns a stored user whose
    id is the account's [userId] when the client is synchronous, and
    [null] when the client is asynchronous. *)
Theorem linkAccount_then_getUserByAccount rawAccount c :
  next_fault c = None ->
  (forall a, In a (accounts_of (database c)) ->
     ~ (accounts.provider a = AdapterAccount.provider rawAccount
        /\ accounts.providerAccountId a
           = AdapterAccount.providerAccountId rawAccount)) ->
  (exists u, In u (users_of (database c))
             /\ users.id u = AdapterAccount.userId rawAccount) ->
  let c' := snd (awaited (linkAccount rawAccount) c) in
  let keys :=
    ProviderAccount.mk (AdapterAccount.provider rawAccount)
                       (AdapterAccount.providerAccountId rawAccount) in
  next_fault c' = None ->
  In (account_values rawAccount) (accounts_of (database c'))
  /\ exists u,
       In u (users_of (database c))
       /\ users.id u = AdapterAccount.userId rawAccount
       /\ awaited (getUserByAccount keys) c' =
            (Ok match kind c with
                | sync => val u
                | async => null
                end, after c' (database c')).
Proof.
  intros F Hkeys Hu c' keys. subst c' keys.
  set (row := account_values rawAccount).
  assert (Hnew : existsb (same_account row) (accounts_of (database c))
                 = false)
    by (apply new_account_iff; exact Hkeys).
  assert (Hhas : has_user (users_of (database c))
                   (AdapterAccount.userId rawAccount) = true)
    by (apply has_user_true_iff; exact Hu).
  rewrite (linkAccount_stores rawAccount c F Hnew Hhas). fold row.
  intros F'. split.
  { simpl. apply in_or_app. right. left. reflexivity. }
  rewrite getUserByAccount_selects by assumption. cbv zeta. simpl.
  set (w := fun a : accounts.row => and_ _ _).
  assert (Hold : forall a, In a (accounts_of (database c)) -> w a = false).
  { intros a Hin. pose proof (existsb_false_In _ _ a Hnew Hin) as S.
    unfold w. rewrite <- S. unfold same_account, and_, eq. simpl.
    now rewrite (String.eqb_sym (accounts.provider a)),
      (String.eqb_sym (accounts.providerAccountId a)). }
  assert (Hself : w row = true).
  { unfold w. apply and_true_iff. split; apply eq_true_iff; reflexivity. }
  rewrite (filter_snoc_only w _ row Hold Hself).
  unfold leftJoin. cbn [flat_map]. rewrite app_nil_r.
  destruct Hu as [u [Hin Hid]].
  destruct (first_filter_some
              (fun u => eq (users.id u) (accounts.userId row))
              (users_of (database c)) u Hin) as [u0 E].
  { now apply eq_true_iff. }
  pose proof (first_filter_In _ _ _ E) as [Hin0 Hm0].
  apply eq_true_iff in Hm0. exists u0. repeat split; auto.
  destruct (filter _ (users_of (database c))) as [|x m]; [discriminate|].
  simpl in E. injection E as ->. reflexivity.
Qed.

Lemma linkAccount_then_getUserByAccount_witness :
  (exists u,
     In u (users_of sample) /\ users.id u = "u1"
     /\ awaited (getUserByAccount (ProviderAccount.mk "gitlab" "9"))
          (snd (awaited (linkAccount gitlab_9) sound))
        = (Ok (val u),
           after (snd (awaited (linkAccount gitlab_9) sound))
             (with_accounts sample [github_123; account_values gitlab_9])))
  /\ exists u,
       In u (users_of sample) /\ users.id u = "u1"
       /\ awaited (getUserByAccount (ProviderAccount.mk "gitlab" "9"))
            (snd (awaited (linkAccount gitlab_9) sound_async))
          = (Ok null,
             after (snd (awaited (linkAccount gitlab_9) sound_async))
               (with_accounts sample
                  [github_123; account_values gitlab_9])).
Proof.
  split.
  - apply (linkAccount_then_getUserByAccount gitlab_9 sound eq_refl).
    + intros a [<-|[]] [H _]. discriminate.
    + exists alice. simpl. auto.
    + reflexivity.
  - apply (linkAccount_then_getUserByAccount gitlab_9 sound_async eq_refl).
    + intros a [<-|[]] [H _]. discriminate.
    + exists alice. simpl. auto.
    + reflexivity.
Defined.

Lemma unlinkAccount_deletes account c :
  next_fault c = None ->
  awaited (unlinkAccount account) c =
    (Ok undefined,
     after c
       (with_accounts (database c)
          (filter
             (fun a =>
                negb (and_ (eq (accounts.providerAccountId a)
                               (ProviderAccount.providerAccountId account))
                           (eq (accounts.provider a)
                               (ProviderAccount.provider account))))
             (accounts_of (database c))))).
Proof.
  intros F.
  unfold unlinkAccount, awaited, bind, ret, run, hand_back, issue.
  rewrite F. unfold delete_accounts. destruct (kind c); reflexivity.
Qed.

(** X13.  On a store that answers, [unlinkAccount] returns [undefined]
    whether or not an account has the two keys, and never throws.
    Afterwards the accounts are those stored before that do not have
    both keys; users, sessions and verification tokens are untouched;
    and [getUserByAccount] with the same keys returns [null]. *)
Theorem unlinkAccount_removes account c :
  next_fault c = None ->
  let keyed a :=
    accounts.provider a = ProviderAccount.provider account
    /\ accounts.providerAccountId a
       = ProviderAccount.providerAccountId account in
  exists c',
    awaited (unlinkAccount account) c = (Ok undefined, c')
    /\ (forall a, In a (accounts_of (database c')) <->
                  In a (accounts_of (database c)) /\ ~ keyed a)
    /\ users_of (database c') = users_of (database c)
    /\ sessions_of (database c') = sessions_of (database c)
    /\ verificationTokens_of (database c')
       = verificationTokens_of (database c)
    /\ (next_fault c' = None ->
        awaited (getUserByAccount account) c'
        = (Ok null, after c' (database c'))).
Proof.
  intros F keyed. rewrite unlinkAccount_deletes by assumption.
  eexists. split; [reflexivity|]. simpl.
  pose (w := fun a : accounts.row =>
               and_ (eq (accounts.providerAccountId a)
                        (ProviderAccount.providerAccountId account))
                    (eq (accounts.provider a)
                        (ProviderAccount.provider account))).
  assert (Hw : forall a, w a = true <-> keyed a).
  { intros a. unfold w, keyed.
    rewrite and_true_iff, !eq_true_iff. tauto. }
  assert (Hleft : forall a,
             In a (filter (fun a => negb (w a)) (accounts_of (database c)))
             <-> In a (accounts_of (database c)) /\ ~ keyed a).
  { intros a. rewrite filter_In, negb_true_iff, <- Hw.
    destruct (w a); intuition congruence. }
  split; [exact Hleft|]. repeat (split; [reflexivity|]).
  intros F'. rewrite getUserByAccount_selects by assumption.
  cbv zeta. simpl. destruct (kind c); [|reflexivity].
  rewrite filter_none; [reflexivity|].
  intros a Hin. apply Hleft in Hin. destruct Hin as [_ Hk].
  apply account_where_false. exact Hk.
Qed.

Lemma unlinkAccount_removes_witness :
  exists c',
    awaited (unlinkAccount (ProviderAccount.mk "github" "123")) sound
    = (Ok undefined, c')
    /\ (forall a, In a (accounts_of (database c')) <->
                  In a (accounts_of sample)
                  /\ ~ (accounts.provider a = "github"
                        /\ accounts.providerAccountId a = "123"))
    /\ users_of (database c') = users_of sample
    /\ sessions_of (database c') = sessions_of sample
    /\ verificationTokens_of (database c') = verificationTokens_of sample
    /\ (next_fault c' = None ->
        awaited (getUserByAccount (ProviderAccount.mk "github" "123")) c'
        = (Ok null, after c' (database c'))).
Proof.
  apply (unlinkAccount_removes (ProviderAccount.mk "github" "123") sound).
  reflexivity.
Defined.

(** X14.  Unlinking an account right after linking it undoes the
    link: the database is again the one before [linkAccount].  On a
    synchronous client a call of [linkAccount] that returned has stored
    the account; on an asynchronous client it returns in any case, and
    the account is stored when the store answered, the keys were new
    and the user existed. *)
Theorem linkAccount_then_unlinkAccount rawAccount c r c' :
  awaited (linkAccount rawAccount) c = (Ok r, c') ->
  next_fault c' = None ->
  kind c = sync
  \/ (next_fault c = None
      /\ (forall a, In a (accounts_of (database c)) ->
            ~ (accounts.provider a = AdapterAccount.provider rawAccount
               /\ accounts.providerAccountId a
                  = AdapterAccount.providerAccountId rawAccount))
      /\ exists u, In u (users_of (database c))
                   /\ users.id u = AdapterAccount.userId rawAccount) ->
  awaited
    (unlinkAccount
       (ProviderAccount.mk (AdapterAccount.provider rawAccount)
                           (AdapterAccount.providerAccountId rawAccount)))
    c'
  = (Ok undefined, after c' (database c)).
Proof.
  intros H F Hstored.
  set (row := account_values rawAccount).
  assert (Hnew : existsb (same_account row) (accounts_of (database c))
                 = false
                 /\ c' = after c (with_accounts (database c)
                                    (accounts_of (database c) ++ [row]))).
  { destruct Hstored as [K|[Fc [Hkeys Hu]]].
    - destruct (linkAccount_returned rawAccount c r c' K H)
        as [E [_ [_ Hc]]]. auto.
    - assert (E : existsb (same_account row) (accounts_of (database c))
                  = false)
        by (apply new_account_iff; exact Hkeys).
      split; auto.
      replace c' with (snd (awaited (linkAccount rawAccount) c))
        by (rewrite H; reflexivity).
      apply linkAccount_stores; auto.
      now apply has_user_true_iff. }
  destruct Hnew as [Hnew ->].
  rewrite unlinkAccount_deletes by assumption. simpl.
  rewrite (filter_snoc_others
             (fun a =>
                and_ (eq (accounts.providerAccountId a)
                         (AdapterAccount.providerAccountId rawAccount))
                     (eq (accounts.provider a)
                         (AdapterAccount.provider rawAccount)))).
  - unfold with_accounts. simpl. now rewrite schema_eta.
  - intros a Hin. pose proof (existsb_false_In _ _ a Hnew Hin) as S.
    rewrite <- S. unfold same_account, and_, eq. simpl.
    rewrite (String.eqb_sym (accounts.provider a)),
      (String.eqb_sym (accounts.providerAccountId a)).
    apply andb_comm.
  - apply and_true_iff. split; apply eq_true_iff; reflexivity.
Qed.

Lemma linkAccount_then_unlinkAccount_witness :
  awaited (unlinkAccount (ProviderAccount.mk "gitlab" "9"))
    (after sound
       (with_accounts sample [github_123; account_values gitlab_9]))
  = (Ok undefined,
     after
       (after sound
          (with_accounts sample [github_123; account_values gitlab_9]))
       sample).
Proof.
  apply (linkAccount_then_unlinkAccount gitlab_9 sound
           (val (normalized (account_values gitlab_9)))
           (after sound
              (with_accounts sample
                 [github_123; account_values gitlab_9])));
    [reflexivity | reflexivity | left; reflexivity].
Defined.

(** ** Deleting users *)

(** X15.  On a store that answers, [deleteUser] with an id some user
    has returns a stored user with that id, the very one when ids are
    unique.  Afterwards the users are those stored before with another
    id, the verification tokens are untouched, and [getUser] with the
    id finds nothing: it returns [null] on a synchronous client and
    [undefined] on an asynchronous one. *)
Theorem deleteUser_returns_removed id c u :
  next_fault c = None ->
  In u (users_of (database c)) -> users.id u = id ->
  exists u0 c',
    awaited (deleteUser id) c = (Ok (val u0), c')
    /\ In u0 (users_of (database c)) /\ users.id u0 = id
    /\ (unique same_user (users_of (database c)) = true -> u0 = u)
    /\ (forall x, In x (users_of (database c')) <->
                  In x (users_of (database c)) /\ users.id x <> id)
    /\ verificationTokens_of (database c')
       = verificationTokens_of (database c)
    /\ (next_fault c' = None ->
        awaited (getUser id) c' =
          (Ok match kind c with
              | sync => null
              | async => undefined
              end, after c' (database c'))).
Proof.
  intros F Hin Hid. unfold deleteUser.
  rewrite get_answers by assumption. unfold delete_users. simpl.
  set (w := fun x => eq (users.id x) id).
  destruct (first_filter_some w (users_of (database c)) u Hin) as [u0 E].
  { now apply eq_true_iff. }
  pose proof (first_filter_In _ _ _ E) as [Hin0 Hm0].
  apply eq_true_iff in Hm0.
  assert (Hleft : forall x,
             In x (filter (fun x => negb (w x)) (users_of (database c)))
             <-> In x (users_of (database c)) /\ users.id x <> id).
  { intros x. rewrite filter_In, negb_true_iff. unfold w.
    now rewrite eq_false_iff. }
  exists u0. eexists. rewrite E. split; [reflexivity|]. simpl.
  split; [exact Hin0|]. split; [exact Hm0|].
  split; [|split; [exact Hleft|split; [reflexivity|]]].
  - intros U. apply (unique_In_eq same_user (users_of (database c)));
      auto; unfold same_user; apply eq_true_iff; congruence.
  - intros F'. rewrite getUser_selects by assumption. cbv zeta. simpl.
    rewrite filter_none.
    + destruct (kind c); reflexivity.
    + intros x Hx. apply Hleft in Hx. apply eq_false_iff. tauto.
Qed.

Lemma deleteUser_returns_removed_witness :
  exists u0 c',
    awaited (deleteUser "u1") sound = (Ok (val u0), c')
    /\ In u0 (users_of sample) /\ users.id u0 = "u1"
    /\ (unique same_user (users_of sample) = true -> u0 = alice)
    /\ (forall x, In x (users_of (database c')) <->
                  In x (users_of sample) /\ users.id x <> "u1")
    /\ verificationTokens_of (database c') = verificationTokens_of sample
    /\ (next_fault c' = None ->
        awaited (getUser "u1") c' = (Ok null, after c' (database c'))).
Proof.
  apply (deleteUser_returns_removed "u1" sound alice); simpl; auto.
Defined.

(** X16.  On a database whose foreign keys hold, deleting a user right
    after creating it undoes the creation: [deleteUser] returns the
    row [createUser] returned, the cascade finds nothing to remove,
    and the database is again the one before the creation. *)
Theorem createUser_then_deleteUser randomUUID data c r c' :
  foreign_keys_ok (database c) = true ->
  awaited (createUser randomUUID data) c = (Ok r, c') ->
  next_fault c' = None ->
  awaited (deleteUser randomUUID) c' = (Ok r, after c' (database c)).
Proof.
  intros FK H F. apply createUser_returned in H.
  destruct H as [-> [Hnew ->]].
  apply foreign_keys_ok_iff in FK. destruct FK as [FKa FKs].
  set (row := user_values data randomUUID).
  assert (Hold : forall u, In u (users_of (database c)) ->
                   eq (users.id u) randomUUID = false)
    by (intros u Hin; apply eq_false_iff; auto).
  assert (Hself : eq (users.id row) randomUUID = true)
    by (apply eq_true_iff; reflexivity).
  assert (Hkept : forall R (userId : R -> string) l,
             references userId (users_of (database c)) l = true ->
             filter (fun r => negb (has_user [row] (userId r))) l = l).
  { intros R userId l FKl. apply filter_all. intros x Hx.
    apply negb_true_iff. apply has_user_false_iff.
    intros u [<-|[]] Hu.
    pose proof (references_In userId _ l x FKl Hx) as Hex.
    apply has_user_true_iff in Hex. destruct Hex as [u' [Hin' Hid']].
    apply (Hnew u' Hin'). simpl in Hu. congruence. }
  unfold deleteUser. rewrite get_answers by assumption.
  unfold delete_users. simpl.
  rewrite (filter_snoc_only _ _ row Hold Hself).
  rewrite (filter_snoc_others _ _ row Hold Hself).
  rewrite !Hkept by assumption. simpl. now rewrite schema_eta.
Qed.

Lemma createUser_then_deleteUser_witness :
  awaited (deleteUser "3f2c")
    (after sound (with_users sample [alice; user_values carol "3f2c"]))
  = (Ok (val (user_values carol "3f2c")),
     after (after sound (with_users sample [alice; user_values carol "3f2c"]))
       sample).
Proof.
  apply (createUser_then_deleteUser "3f2c" carol sound
           (val (user_values carol "3f2c"))
           (after sound
              (with_users sample [alice; user_values carol "3f2c"])));
    reflexivity.
Defined.

(** ** Updates *)

Lemma filter_update_rows {R} (f : R -> R) (w : R -> bool) l :
  (forall r, In r l -> w r = true -> w (f r) = true) ->
  filter w (update_rows f w l) = map f (filter w l).
Proof.
  unfold update_rows. induction l as [|a l IH]; simpl; auto.
  intros H. destruct (w a) eqn:E; simpl.
  - rewrite (H a) by auto. rewrite IH; auto.
  - rewrite E. apply IH; auto.
Qed.

Lemma first_map {R} (f : R -> R) l r :
  first l = val r -> first (map f l) = val (f r).
Proof. destruct l; simpl; [discriminate|]. now intros [= ->]. Qed.

Lemma session_set_keeps_token data s :
  sessions.sessionToken s = PartialSession.sessionToken data ->
  same_session (session_set data s) s = true.
Proof.
  intros H. unfold same_session. apply eq_true_iff. simpl. congruence.
Qed.

(** X17.  On a store that answers, [updateSession] with a token some
    session has: when the update names a [userId] no user has, the
    call throws and the database is unchanged; when every session with
    the token ends up with a [userId] some user has, the call returns
    the image of a session with the token (of the very one when tokens
    are unique), whose token is the same and whose [userId] and
    [expires] are the given ones where given and the old ones
    otherwise. *)
Theorem updateSession_updates data c s :
  next_fault c = None ->
  let d := database c in
  In s (sessions_of d) ->
  sessions.sessionToken s = PartialSession.sessionToken data ->
  (forall uid,
     PartialSession.userId data = Some uid ->
     (forall u, In u (users_of d) -> users.id u <> uid) ->
     awaited (updateSession data) c = (Throw FOREIGNKEY, after c d))
  /\ ((forall x, In x (sessions_of d) ->
         sessions.sessionToken x = PartialSession.sessionToken data ->
         has_user (users_of d) (sessions.userId (session_set data x))
         = true) ->
      exists s0,
        In s0 (sessions_of d)
        /\ sessions.sessionToken s0 = PartialSession.sessionToken data
        /\ (unique same_session (sessions_of d) = true -> s0 = s)
        /\ awaited (updateSession data) c =
             (Ok (val (sessions.mk
                         (sessions.sessionToken s0)
                         (match PartialSession.userId data with
                          | Some uid => uid
                          | None => sessions.userId s0
                          end)
                         (match PartialSession.expires data with
                          | Some e => e
                          | None => sessions.expires s0
                          end))),
              after c
                (with_sessions d
                   (update_rows (session_set data)
                      (fun x => eq (sessions.sessionToken x)
                                   (PartialSession.sessionToken data))
                      (sessions_of d))))).
Proof.
  intros F d Hin Hs.
  set (w := fun x => eq (sessions.sessionToken x)
                        (PartialSession.sessionToken data)).
  assert (Hkeys : forallb (fun r => same_session (session_set data r) r)
                    (filter w (sessions_of d)) = true).
  { apply forallb_forall. intros x Hx. apply filter_In in Hx.
    destruct Hx as [_ Hx]. apply eq_true_iff in Hx.
    now apply session_set_keeps_token. }
  split.
  - intros uid Huid Hno. unfold updateSession.
    rewrite get_answers by assumption. unfold update_sessions.
    fold d w. rewrite Hkeys. simpl.
    replace (references _ _ _) with false; [reflexivity|].
    symmetry. apply not_true_is_false. intros E.
    pose proof (references_In sessions.userId _ _ (session_set data s) E)
      as Hu.
    assert (Hs' : In (session_set data s)
                    (map (session_set data) (filter w (sessions_of d)))).
    { apply in_map. apply filter_In. split; auto.
      now apply eq_true_iff. }
    specialize (Hu Hs'). apply has_user_true_iff in Hu.
    destruct Hu as [u [Hu Hid]]. simpl in Hid. rewrite Huid in Hid.
    simpl in Hid. exact (Hno u Hu Hid).
  - intros Hfk. unfold updateSession.
    rewrite get_answers by assumption. unfold update_sessions.
    fold d w. rewrite Hkeys. simpl.
    replace (references _ _ _) with true.
    + simpl.
      destruct (first_filter_some w (sessions_of d) s Hin) as [s0 E].
      { now apply eq_true_iff. }
      pose proof (first_filter_In _ _ _ E) as [Hin0 Hm0].
      apply eq_true_iff in Hm0. exists s0.
      split; [exact Hin0|]. split; [exact Hm0|]. split.
      * intros U. apply (unique_In_eq same_session (sessions_of d)); auto;
          unfold same_session; apply eq_true_iff; congruence.
      * rewrite (first_map (session_set data) _ s0 E).
        unfold session_set, set_required. rewrite Hm0. reflexivity.
    + symmetry. apply references_iff. intros r Hr.
      apply in_map_iff in Hr. destruct Hr as [x [<- Hx]].
      apply filter_In in Hx. destruct Hx as [Hx Hwx].
      apply eq_true_iff in Hwx. auto.
Qed.

Lemma updateSession_updates_witness :
  awaited (updateSession move_s1) sound = (Throw FOREIGNKEY, after sound sample)
  /\ exists s0,
       In s0 (sessions_of sample)
       /\ sessions.sessionToken s0 = "s1"
       /\ (unique same_session (sessions_of sample) = true -> s0 = session_s1)
       /\ awaited (updateSession extend_s1) sound =
            (Ok (val (sessions.mk (sessions.sessionToken s0)
                        (sessions.userId s0) 5000)),
             after sound
               (with_sessions sample
                  (update_rows (session_set extend_s1)
                     (fun x => eq (sessions.sessionToken x) "s1")
                     (sessions_of sample)))).
Proof.
  split.
  - apply (proj1 (updateSession_updates move_s1 sound session_s1
                    eq_refl (or_introl eq_refl) eq_refl) "u9");
      [reflexivity|].
    intros u [<-|[]]. discriminate.
  - apply (proj2 (updateSession_updates extend_s1 sound session_s1
                    eq_refl (or_introl eq_refl) eq_refl)).
    intros x [<-|[]] _. reflexivity.
Defined.

Lemma update_rows_ids data i l :
  PartialUser.id data = Some i ->
  map users.id (update_rows (user_set data) (fun u => eq (users.id u) i) l)
  = map users.id l.
Proof.
  intros Hid. unfold update_rows. rewrite map_map. apply map_ext_in.
  intros u _. destruct (eq (users.id u) i) eqn:E; auto.
  apply eq_true_iff in E. simpl. rewrite Hid. simpl. congruence.
Qed.

(** X18.  Whatever its argument and however it ends, [updateUser]
    leaves the accounts, the sessions and the verification tokens as
    they were, keeps the ids of the users, in order, and keeps every
    user whose id is not the id of the update. *)
Theorem updateUser_frame data c :
  let c' := snd (updateUser data c) in
  accounts_of (database c') = accounts_of (database c)
  /\ sessions_of (database c') = sessions_of (database c)
  /\ verificationTokens_of (database c')
     = verificationTokens_of (database c)
  /\ map users.id (users_of (database c'))
     = map users.id (users_of (database c))
  /\ (forall u, In u (users_of (database c)) ->
        PartialUser.id data <> Some (users.id u) ->
        In u (users_of (database c'))).
Proof.
  intros c'. subst c'.
  destruct (not_string (PartialUser.id data)) eqn:N.
  { rewrite updateUser_no_id by assumption. simpl. auto. }
  rewrite <- (awaited_client (updateUser data) c).
  destruct (PartialUser.id data) as [i|] eqn:Hid; [|discriminate].
  simpl in N. apply String.eqb_neq in N.
  destruct (next_fault c) as [code|] eqn:F.
  { unfold updateUser. rewrite Hid. simpl.
    apply String.eqb_neq in N. rewrite N.
    rewrite (get_fault _ c code F). simpl. auto. }
  rewrite (updateUser_updates data c i Hid N F). simpl.
  repeat split.
  - now apply update_rows_ids.
  - intros u Hin Hne. unfold update_rows. apply in_map_iff.
    exists u. split; auto.
    destruct (eq (users.id u) i) eqn:E; auto.
    apply eq_true_iff in E. congruence.
Qed.

(** X19.  A user that [updateUser] has returned is what [getUser]
    gives back for its id when the store answers. *)
Theorem updateUser_then_getUser data c r c' :
  awaited (updateUser data) c = (Ok (val r), c') ->
  next_fault c' = None ->
  PartialUser.id data = Some (users.id r)
  /\ awaited (getUser (users.id r)) c' = (Ok (val r), after c' (database c')).
Proof.
  intros H F.
  destruct (not_string (PartialUser.id data)) eqn:N.
  { unfold awaited in H. rewrite updateUser_no_id in H by assumption.
    discriminate. }
  destruct (PartialUser.id data) as [i|] eqn:Hid; [|discriminate].
  simpl in N. apply String.eqb_neq in N.
  destruct (next_fault c) as [code|] eqn:Fc.
  { unfold updateUser in H. rewrite Hid in H. simpl in H.
    apply String.eqb_neq in N. rewrite N in H.
    rewrite (get_fault _ c code Fc) in H. discriminate. }
  rewrite (updateUser_updates data c i Hid N Fc) in H. cbv zeta in H.
  set (w := fun u => eq (users.id u) i) in H.
  injection H as Hr <-.
  destruct (filter w (users_of (database c))) as [|u0 m] eqn:E;
    [discriminate|].
  simpl in Hr. injection Hr as <-.
  assert (Hi : users.id (user_set data u0) = i)
    by (simpl; rewrite Hid; reflexivity).
  rewrite Hi. split; [reflexivity|].
  rewrite getUser_selects by assumption. cbv zeta. simpl.
  fold w. rewrite filter_update_rows.
  - rewrite E. simpl. destruct (kind c); reflexivity.
  - intros u _ _. unfold w. apply eq_true_iff. simpl.
    rewrite Hid. reflexivity.
Qed.

Lemma updateUser_then_getUser_witness :
  PartialUser.id rename_alice = Some "u1"
  /\ awaited (getUser "u1")
       (after sound (with_users sample [user_set rename_alice alice]))
     = (Ok (val (user_set rename_alice alice)),
        after (after sound (with_users sample [user_set rename_alice alice]))
          (with_users sample [user_set rename_alice alice])).
Proof.
  apply (updateUser_then_getUser rename_alice sound
           (user_set rename_alice alice)
           (after sound (with_users sample [user_set rename_alice alice])));
    reflexivity.
Defined.

(** ** What every reachable database satisfies *)

Lemma unique_NoDup {R K} (same : R -> R -> bool) (key : R -> K) l :
  (forall a b, same a b = true <-> key a = key b) ->
  unique same l = true -> NoDup (map key l).
Proof.
  intros Hkey. induction l as [|a l IH]; simpl; intros U.
  - constructor.
  - apply andb_true_iff in U. destruct U as [U1 U2].
    apply negb_true_iff in U1. constructor; auto.
    intros Hin. apply in_map_iff in Hin. destruct Hin as [b [Hb Hin]].
    assert (existsb (same a) l = true); [|congruence].
    apply existsb_exists. exists b. split; auto.
    apply Hkey. congruence.
Qed.

(** X20.  In every database the adapter reaches from an empty one,
    whatever the calls, their arguments, their outcomes and the faults
    of the store: no two users share an id, no two sessions a token, no
    two accounts both provider and provider account id, no two
    verification tokens both identifier and token; and every session
    and every account belongs to a stored user. *)
Theorem reachable_keeps_constraints c :
  reachable c ->
  let d := database c in
  NoDup (map users.id (users_of d))
  /\ NoDup (map sessions.sessionToken (sessions_of d))
  /\ NoDup (map account_key (accounts_of d))
  /\ NoDup (map token_key (verificationTokens_of d))
  /\ (forall s, In s (sessions_of d) ->
        exists u, In u (users_of d) /\ users.id u = sessions.userId s)
  /\ (forall a, In a (accounts_of d) ->
        exists u, In u (users_of d) /\ users.id u = accounts.userId a).
Proof.
  intros H d. apply reachable_consistent in H. fold d in H.
  apply consistent_iff in H. destruct H as [[U [A [S T]]] [FA FS]].
  split; [|split; [|split; [|split; [|split]]]].
  - apply (unique_NoDup same_user); auto.
    intros a b. apply eq_true_iff.
  - apply (unique_NoDup same_session); auto.
    intros a b. apply eq_true_iff.
  - apply (unique_NoDup same_account); auto.
    intros a b. rewrite same_account_true_iff. unfold account_key.
    split; [intros [-> ->]; reflexivity | intros [= -> ->]; auto].
  - apply (unique_NoDup same_token); auto.
    intros a b. rewrite same_token_true_iff. unfold token_key.
    split; [intros [-> ->]; reflexivity | intros [= -> ->]; auto].
  - intros s Hin. apply has_user_true_iff.
    now apply (references_In sessions.userId _ _ s FS).
  - intros a Hin. apply has_user_true_iff.
    now apply (references_In accounts.userId _ _ a FA).
Qed.

Lemma reachable_keeps_constraints_witness :
  database grown
  = mkSchema [user_values carol "3f2c"; user_values alias "77aa"]
             [account_values gitlab_carol]
             [sessions.mk "s9" "3f2c" 10]
             [token_def]
  /\ NoDup (map users.id (users_of (database grown)))
  /\ NoDup (map account_key (accounts_of (database grown)))
  /\ (forall s, In s (sessions_of (database grown)) ->
        exists u, In u (users_of (database grown))
                  /\ users.id u = sessions.userId s)
  /\ (forall a, In a (accounts_of (database grown)) ->
        exists u, In u (users_of (database grown))
                  /\ users.id u = accounts.userId a).
Proof.
  assert (R : reachable grown).
  { unfold grown. repeat apply reachable_invoke. apply reachable_empty. }
  pose proof (reachable_keeps_constraints grown R)
    as [U [_ [A [_ [S FA]]]]].
  split; [reflexivity|]. auto.
Defined.

(** X21.  In a database the adapter has reached from an empty one, on
    a store that answers, [getSessionAndUser] with the token of a
    stored session returns that session paired with its user, on
    either kind of client.  [getUserByAccount] with the keys of a
    stored account returns that account's user on a synchronous
    client, where the [null] kept for an account without user is never
    what a stored account gets; on an asynchronous client it returns
    [null]. *)
Theorem reachable_rows_have_users c :
  reachable c -> next_fault c = None ->
  let d := database c in
  (forall s,
     In s (sessions_of d) ->
     exists u,
       In u (users_of d) /\ users.id u = sessions.userId s
       /\ awaited (getSessionAndUser (sessions.sessionToken s)) c
          = (Ok (val (mkSessionAndUser s u)), after c d))
  /\ (forall a,
      In a (accounts_of d) ->
      exists u,
        In u (users_of d) /\ users.id u = accounts.userId a
        /\ awaited
             (getUserByAccount
                (ProviderAccount.mk (accounts.provider a)
                                    (accounts.providerAccountId a))) c
           = (Ok match kind c with
                 | sync => val u
                 | async => null
                 end, after c d)).
Proof.
  intros H F d. apply reachable_consistent in H. fold d in H.
  apply consistent_iff in H. destruct H as [[U [A [S T]]] [FA FS]].
  split.
  - intros s Hin.
    rewrite getSessionAndUser_selects by assumption. cbv zeta. fold d.
    rewrite (filter_unique same_session _ (sessions_of d) s); auto.
    + unfold innerJoin. cbn [flat_map]. rewrite app_nil_r.
      pose proof (references_In sessions.userId _ _ s FS Hin) as Hu.
      apply has_user_true_iff in Hu. destruct Hu as [u [Hu Hid]].
      destruct (first_filter_some
                  (fun u => eq (users.id u) (sessions.userId s))
                  (users_of d) u Hu) as [u0 E].
      { now apply eq_true_iff. }
      pose proof (first_filter_In _ _ _ E) as [Hin0 Hm0].
      apply eq_true_iff in Hm0. exists u0. repeat split; auto.
      destruct (filter _ (users_of d)) as [|x m]; [discriminate|].
      simpl in E. injection E as ->. simpl.
      destruct (kind c); reflexivity.
    + intros x y Hx Hy. apply eq_true_iff in Hx, Hy.
      unfold same_session. apply eq_true_iff. congruence.
    + apply eq_true_iff. reflexivity.
  - intros a Hin.
    rewrite getUserByAccount_selects by assumption. cbv zeta. fold d.
    simpl.
    rewrite (filter_unique same_account _ (accounts_of d) a); auto.
    + unfold leftJoin. cbn [flat_map]. rewrite app_nil_r.
      pose proof (references_In accounts.userId _ _ a FA Hin) as Hu.
      apply has_user_true_iff in Hu. destruct Hu as [u [Hu Hid]].
      destruct (first_filter_some
                  (fun u => eq (users.id u) (accounts.userId a))
                  (users_of d) u Hu) as [u0 E].
      { now apply eq_true_iff. }
      pose proof (first_filter_In _ _ _ E) as [Hin0 Hm0].
      apply eq_true_iff in Hm0. exists u0. repeat split; auto.
      destruct (filter _ (users_of d)) as [|x m]; [discriminate|].
      simpl in E. injection E as ->. reflexivity.
    + intros x y Hx Hy. apply and_true_iff in Hx, Hy.
      destruct Hx as [X1 X2], Hy as [Y1 Y2].
      apply eq_true_iff in X1, X2, Y1, Y2.
      apply same_account_true_iff. split; congruence.
    + apply and_true_iff. split; apply eq_true_iff; reflexivity.
Qed.

Lemma reachable_rows_have_users_witness :
  (exists u,
     In u (users_of (database grown)) /\ users.id u = "3f2c"
     /\ awaited (getSessionAndUser "s9") grown
        = (Ok (val (mkSessionAndUser (sessions.mk "s9" "3f2c" 10) u)),
           after grown (database grown)))
  /\ exists u,
       In u (users_of (database grown)) /\ users.id u = "3f2c"
       /\ awaited (getUserByAccount (ProviderAccount.mk "gitlab" "7"))
            grown
          = (Ok null, after grown (database grown)).
Proof.
  assert (R : reachable grown).
  { unfold grown. repeat apply reachable_invoke. apply reachable_empty. }
  pose proof (reachable_rows_have_users grown R eq_refl) as [S A].
  split.
  - apply (S (sessions.mk "s9" "3f2c" 10)). left. reflexivity.
  - apply (A (account_values gitlab_carol)). left. reflexivity.
Defined.

(** ** Calls that throw *)

Lemma insert_users_atomic v : atomic (insert_users v).
Proof.
  intros d e. unfold insert_users.
  destruct (existsb _ _); simpl; [reflexivity|discriminate].
Qed.

Lemma insert_accounts_atomic v : atomic (insert_accounts v).
Proof.
  intros d e. unfold insert_accounts.
  destruct (existsb _ _); simpl; [reflexivity|].
  destruct (negb _); simpl; [reflexivity|discriminate].
Qed.

Lemma insert_sessions_atomic v : atomic (insert_sessions v).
Proof.
  intros d e. unfold insert_sessions.
  destruct (existsb _ _); simpl; [reflexivity|].
  destruct (negb _); simpl; [reflexivity|discriminate].
Qed.

Lemma insert_verificationTokens_atomic v :
  atomic (insert_verificationTokens v).
Proof.
  intros d e. unfold insert_verificationTokens.
  destruct (existsb _ _); simpl; [reflexivity|discriminate].
Qed.

Lemma update_users_atomic set w : atomic (update_users set w).
Proof.
  intros d e. unfold update_users.
  destruct (negb _); simpl; [reflexivity|].
  destruct (negb _); simpl; [reflexivity|discriminate].
Qed.

Lemma update_sessions_atomic set w : atomic (update_sessions set w).
Proof.
  intros d e. unfold update_sessions.
  destruct (negb _); simpl; [reflexivity|].
  destruct (negb _); simpl; [reflexivity|discriminate].
Qed.

(** A statement that always answers with rows is atomic for want of
    an exception. *)
Lemma answering_atomic {A} (q : statement A) :
  (forall d, exists a, fst (q d) = Ok a) -> atomic q.
Proof. intros H d e E. destruct (H d) as [a Ha]. congruence. Qed.

Lemma issue_atomic {A} (q : statement A) c e c' :
  atomic q -> issue q c = (Throw e, c') -> database c' = database c.
Proof.
  intros Hq. unfold issue. destruct (next_fault c).
  - intros H. injection H as _ <-. reflexivity.
  - specialize (Hq (database c) e).
    destruct (q (database c)) as [r d]. simpl in Hq.
    intros H. injection H as -> <-. simpl. auto.
Qed.

Lemma thrown_some {A} (r : result A) e : thrown r = Some e -> r = Throw e.
Proof. destruct r; simpl; congruence. Qed.

(** [insert_accounts] answers with the one row it stored. *)
Lemma issue_insert_accounts_rows row c rows c' :
  issue (insert_accounts row) c = (Ok rows, c') -> rows = [row].
Proof.
  unfold issue, insert_accounts. destruct (next_fault c); [discriminate|].
  destruct (existsb _ _); [discriminate|].
  destruct (negb _); [discriminate|].
  intros H. injection H as <- _. reflexivity.
Qed.

(** A method is unfolded down to the statement it sends, and the
    cases of the statement's outcome and of the client's kind are gone
    through: where the statement answered the call does not throw,
    where it threw the database is the one before. *)
Ltac by_outcome lemma :=
  unfold awaited, bind, ret, throw, try_catch, get, run, hand_back;
  match goal with
  | |- context [issue ?q ?c] =>
      let I := fresh "I" in
      destruct (issue q c) as [[?x|?e'] ?c1] eqn:I;
      destruct (kind c); simpl; intros H;
      try discriminate H;
      try reflexivity;
      try (eapply issue_atomic; [apply lemma | exact I])
  end.

(** X22.  A call of the adapter that ends with an exception once
    awaited, be it a fault of the store, a violated key or the
    adapter's own error, has changed nothing: the database after it is
    the database before. *)
Theorem failed_call_changes_nothing k c e :
  raises k c = Some e -> database (invoke k c) = database c.
Proof.
  assert (Hsel : forall R (rows : schema -> list R),
             atomic (fun d => (Ok (rows d), d))).
  { intros R rows. apply answering_atomic. intros d. eexists.
    reflexivity. }
  assert (Hdel : forall A (f : schema -> A * schema),
             atomic (fun d => (Ok (fst (f d)), snd (f d)))).
  { intros A f. apply answering_atomic. intros d. eexists.
    reflexivity. }
  destruct k; simpl; intros H; apply thrown_some in H; revert H.
  - unfold createUser. by_outcome insert_users_atomic.
  - unfold getUser. by_outcome (Hsel users.row).
  - unfold getUserByEmail. by_outcome (Hsel users.row).
  - unfold createSession. by_outcome insert_sessions_atomic.
  - unfold getSessionAndUser. by_outcome (Hsel SessionAndUser).
  - unfold updateUser. destruct (not_string _); [reflexivity|].
    by_outcome update_users_atomic.
  - unfold updateSession. by_outcome update_sessions_atomic.
  - unfold linkAccount. by_outcome insert_accounts_atomic.
    apply issue_insert_accounts_rows in I. subst x.
    simpl in H. discriminate H.
  - unfold getUserByAccount. by_outcome (Hsel AccountsUsers).
  - unfold deleteSession.
    by_outcome (answering_atomic
                  (delete_sessions
                     (fun s => eq (sessions.sessionToken s) sessionToken))
                  (fun d => ex_intro _ _ eq_refl)).
  - unfold createVerificationToken.
    by_outcome insert_verificationTokens_atomic.
  - unfold useVerificationToken.
    by_outcome (answering_atomic
                  (delete_verificationTokens
                     (fun t =>
                        and_ (eq (verificationTokens.identifier t)
                                 (TokenParams.identifier token))
                             (eq (verificationTokens.token t)
                                 (TokenParams.token token))))
                  (fun d => ex_intro _ _ eq_refl)).
  - unfold deleteUser.
    by_outcome (answering_atomic
                  (delete_users (fun u => eq (users.id u) id))
                  (fun d => ex_intro _ _ eq_refl)).
  - unfold unlinkAccount.
    by_outcome (answering_atomic
                  (delete_accounts
                     (fun a =>
                        and_ (eq (accounts.providerAccountId a)
                                 (ProviderAccount.providerAccountId
                                    account))
                             (eq (accounts.provider a)
                                 (ProviderAccount.provider account))))
                  (fun d => ex_intro _ _ eq_refl)).
Qed.

Lemma failed_call_changes_nothing_witness :
  database (invoke (CreateSession session_s1) sound) = sample
  /\ database (invoke (UseVerificationToken (TokenParams.mk "x@y.com" "abc"))
                 busy) = sample.
Proof.
  split.
  - apply (failed_call_changes_nothing (CreateSession session_s1) sound
             PRIMARYKEY).
    reflexivity.
  - apply (failed_call_changes_nothing
             (UseVerificationToken (TokenParams.mk "x@y.com" "abc")) busy
             (Error "No verification token found.")).
    reflexivity.
Defined.

(** ** What [linkAccount] gives back, and what a consumed token leaves *)

(** X23.  Whenever [linkAccount] returns on a synchronous client, it
    returns its argument with every optional property that was [null]
    made [undefined]: the required properties and the optional ones
    that were given are exactly those of the argument, and those left
    out stay left out.  On an asynchronous client it returns an object
    none of whose properties is defined, whatever the argument. *)
Theorem linkAccount_returns_argument rawAccount c r c' :
  awaited (linkAccount rawAccount) c = (Ok r, c') ->
  r = val match kind c with
          | sync =>
              LinkedAccount.mk
                (val (AdapterAccount.userId rawAccount))
                (val (AdapterAccount.type rawAccount))
                (val (AdapterAccount.provider rawAccount))
                (val (AdapterAccount.providerAccountId rawAccount))
                (AdapterAccount.refresh_token rawAccount ?? undefined)
                (AdapterAccount.access_token rawAccount ?? undefined)
                (AdapterAccount.expires_at rawAccount ?? undefined)
                (AdapterAccount.token_type rawAccount ?? undefined)
                (AdapterAccount.scope rawAccount ?? undefined)
                (AdapterAccount.id_token rawAccount ?? undefined)
                (AdapterAccount.session_state rawAccount ?? undefined)
          | async =>
              LinkedAccount.mk
                undefined undefined undefined undefined undefined
                undefined undefined undefined undefined undefined
                undefined
          end.
Proof.
  intros H. destruct (kind c) eqn:K.
  - destruct (linkAccount_returned rawAccount c r c' K H)
      as [_ [_ [-> _]]].
    destruct rawAccount as [u t p a r1 r2 r3 r4 r5 r6 r7].
    destruct r1, r2, r3, r4, r5, r6, r7; reflexivity.
  - rewrite linkAccount_awaited in H. cbv zeta in H. rewrite K in H.
    injection H as <- _. reflexivity.
Qed.

Lemma linkAccount_returns_argument_witness :
  val (normalized (account_values gitlab_9))
  = val (LinkedAccount.mk
           (val "u1") (val "oauth") (val "gitlab") (val "9")
           undefined (val "glpat_1")
           undefined undefined undefined undefined undefined).
Proof.
  apply (linkAccount_returns_argument gitlab_9 sound
           (val (normalized (account_values gitlab_9)))
           (after sound
              (with_accounts sample
                 [github_123; account_values gitlab_9]))).
  reflexivity.
Defined.

(** X24.  On a store that answers, [useVerificationToken] removes the
    tokens stored under the given identifier and token and nothing
    else: a token that differs in either of the two is still there
    afterwards, and users, accounts and sessions are untouched. *)
Theorem useVerificationToken_removes_only_the_pair token c :
  next_fault c = None ->
  let c' := snd (useVerificationToken token c) in
  (forall t,
     In t (verificationTokens_of (database c')) <->
     In t (verificationTokens_of (database c))
     /\ ~ (verificationTokens.identifier t = TokenParams.identifier token
           /\ verificationTokens.token t = TokenParams.token token))
  /\ users_of (database c') = users_of (database c)
  /\ accounts_of (database c') = accounts_of (database c)
  /\ sessions_of (database c') = sessions_of (database c).
Proof.
  intros F c'. subst c'.
  rewrite <- (awaited_client (useVerificationToken token) c).
  rewrite (useVerificationToken_deletes token c F). simpl.
  split; [|auto].
  intros t. rewrite filter_In, negb_true_iff.
  rewrite <- (token_where_true token t).
  destruct (and_ _ _); intuition congruence.
Qed.

Lemma useVerificationToken_removes_only_the_pair_witness :
  users_of
    (database
       (snd (useVerificationToken (TokenParams.mk "x@y.com" "abc") sound)))
  = users_of sample.
Proof.
  apply (useVerificationToken_removes_only_the_pair
           (TokenParams.mk "x@y.com" "abc") sound eq_refl).
Defined.

Lemma updateUser_frame_witness :
  In blank (users_of (database (snd (updateUser rename_alice with_blank)))).
Proof.
  apply (updateUser_frame rename_alice with_blank).
  - simpl. auto.
  - discriminate.
Defined.

(** X25.  On an asynchronous client [useVerificationToken] never
    throws by itself: it hands back a Promise, so its [catch] catches
    nothing and the error "No verification token found." is never
    produced.  A fault of the store reaches the caller, once it awaits,
    as the store's own error. *)
Theorem useVerificationToken_async_never_catches token c :
  kind c = async ->
  (exists settles,
     fst (useVerificationToken token c) = Ok (promise settles))
  /\ (forall code,
      next_fault c = Some code ->
      awaited (useVerificationToken token) c
      = (Throw (SqliteError code), after c (database c)))
  /\ fst (awaited (useVerificationToken token) c)
     <> Throw (Error "No verification token found.").
Proof.
  intros K. split; [|split].
  - unfold useVerificationToken, try_catch, bind, ret, get, hand_back.
    destruct (issue _ c) as [outcome c']. rewrite K. simpl.
    eexists. reflexivity.
  - intros code F.
    rewrite (useVerificationToken_faulted token c code F), K.
    reflexivity.
  - destruct (next_fault c) as [code|] eqn:F.
    + rewrite (useVerificationToken_faulted token c code F), K.
      discriminate.
    + rewrite (useVerificationToken_deletes token c F). discriminate.
Qed.

Lemma useVerificationToken_async_never_catches_witness :
  awaited (useVerificationToken (TokenParams.mk "x@y.com" "abc"))
    busy_async
  = (Throw (SqliteError "SQLITE_BUSY"), after busy_async sample).
Proof.
  apply (proj1 (proj2 (useVerificationToken_async_never_catches
                         (TokenParams.mk "x@y.com" "abc") busy_async
                         eq_refl)) "SQLITE_BUSY").
  reflexivity.
Defined.
